(** * segmed: the MultiResUNet graph builder

    A shallow embedding of [segmed/models/multiresunet.py].  The module
    builds a Keras functional graph; nothing in it computes on tensors.  The
    embedding has three parts:

    - the Python values the module computes with (unbounded integers,
      binary64 floats, [None], exceptions);
    - the part of the Keras functional API the module calls: symbolic
      tensors, layers, the shape each layer infers, and the record of the
      layers that were called;
    - the four functions of the module, [conv2d], [MultiResBlock],
      [ResPath] and [MultiResUnet], written in a state-and-error monad in
      the order the Python statements run.

    The definitions come first; the lemmas and the theorems follow. *)

From Stdlib Require Import ZArith List String Ascii Bool Lia Floats.
Import ListNotations.

Set Warnings "-inexact-float".

Local Open Scope Z_scope.

(** * Definitions *)

(** ** Exceptions, results and the construction monad *)

(** Exceptions raised while the module's own expressions are evaluated
    (Python's arithmetic and conversions). *)
Inductive py_exception :=
| TypeError
| ValueError
| OverflowError.

(** Exceptions raised inside a call into Keras. *)
Inductive keras_exception :=
| InvalidArgument
| ShapeMismatch
| GraphDisconnected.

(** An error together with the place it originates from. *)
Inductive error :=
| OwnError (e : py_exception)
| FrameworkError (e : keras_exception).

Inductive result (A : Type) :=
| Ok (a : A)
| Err (e : error).
Arguments Ok {A} a.
Arguments Err {A} e.

(** The spatial rows, the spatial columns and the channels of a symbolic
    tensor; the batch axis is always unknown and is left out. *)
Definition shape := (Z * Z * Z)%type.

Definition rows (s : shape) : Z := fst (fst s).
Definition cols (s : shape) : Z := snd (fst s).
Definition channels (s : shape) : Z := snd s.

(** A computation that threads a state and stops at the first exception. *)
Definition state_result (S A : Type) : Type := S -> result (A * S).

Definition ret {S A} (a : A) : state_result S A := fun s => Ok (a, s).

Definition bind {S A B} (m : state_result S A) (f : A -> state_result S B)
    : state_result S B :=
  fun s => match m s with
           | Ok (a, s') => f a s'
           | Err e => Err e
           end.

Definition raise {S A} (e : py_exception) : state_result S A :=
  fun _ => Err (OwnError e).

(** An expression of the module itself: its exception is the module's own. *)
Definition eval {S A} (v : py_exception + A) : state_result S A :=
  match v with
  | inl e => raise e
  | inr a => ret a
  end.

Declare Scope build_scope.
Delimit Scope build_scope with build.
Notation "x <- m ;; k" := (bind m (fun x => k))
  (at level 61, m at next level, right associativity) : build_scope.
Local Open Scope build_scope.

(** ** Python arithmetic used by the module *)

Module Py.

(** [float(n)] for an integer [n], as the mixed product [n * x] performs
    it: round to nearest even, [OverflowError] beyond the binary64 range. *)
Definition float_of_int (n : Z) : py_exception + float :=
  let x := SF2Prim (binary_normalize prec emax n 0 false) in
  if PrimFloat.is_infinity x then inl OverflowError else inr x.

(** [n * x] where [n] is an [int] and [x] an [Optional[float]]. *)
Definition mul_int (n : Z) (x : option float) : py_exception + float :=
  match x with
  | None => inl TypeError
  | Some x =>
      match float_of_int n with
      | inl e => inl e
      | inr n' => inr (PrimFloat.mul n' x)
      end
  end.

(** [int(x)] for a float: truncation toward zero; NaN and the infinities
    have no integer value. *)
Definition int (x : float) : py_exception + Z :=
  match Prim2SF x with
  | S754_nan => inl ValueError
  | S754_infinity _ => inl OverflowError
  | S754_zero _ => inr 0
  | S754_finite s m e =>
      let magnitude :=
        match e with
        | Zneg p => Z.shiftr (Zpos m) (Zpos p)
        | _ => Z.shiftl (Zpos m) e
        end in
      inr (if s then - magnitude else magnitude)
  end.

(** [range(n)] runs its body [max(0, n)] times. *)
Definition range (n : Z) : nat := Z.to_nat n.

End Py.

(** ** The Keras functional API, as far as the module uses it

    Keras is not part of the repository.  What follows is the shape each
    layer infers when it is called on symbolic tensors, and the argument
    checks that come with it, after the Keras sources ([conv_utils],
    [convolutional], [pooling], [merge]) and the shape functions of
    TensorFlow 2 that they end in.  Negative dimensions are refused, and so
    is an unpadded window larger than its input; an empty dimension is let
    through where a layer pads or has no window. *)

Module K.

(** The layer classes the module instantiates, with the constructor
    arguments it passes.  [Input] and [add] are the functional forms of
    the input layer and of the elementwise sum. *)
Module layers.
Inductive layer :=
| Input (input_shape : shape)
| Conv2D (filters : Z) (kernel_size : Z * Z) (strides : Z * Z)
         (padding : option string) (use_bias : bool)
| BatchNormalization (scale : bool)
| Activation (activation : string)
| Concatenate
| add
| MaxPooling2D (pool_size : Z * Z)
| Conv2DTranspose (filters : Z) (kernel_size : Z * Z) (strides : Z * Z)
                  (padding : option string).
End layers.
Import layers.

(** A symbolic tensor: the index of the layer call that produced it and
    its inferred shape. *)
Record tensor := mkTensor { tid : nat; tshape : shape }.

(** One layer call: the layer, the tensors it was called on and the shape
    of its output. *)
Record node := mkNode {
  nlayer : layer;
  inbound : list nat;
  output_shape : shape
}.

(** The framework's record of every layer call made so far. *)
Definition graph := list node.

(** Graph construction threads that record. *)
Definition building : Type -> Type := state_result graph.

(** A model: its declared inputs and outputs, and the layer calls its
    outputs depend on. *)
Record model := mkModel {
  inputs : list tensor;
  outputs : list tensor;
  model_layers : list (nat * node)
}.

Inductive padding_mode := valid | same.

Definition lower (c : ascii) : ascii :=
  let n := nat_of_ascii c in
  if andb (Nat.leb 65 n) (Nat.leb n 90) then ascii_of_nat (n + 32) else c.

Fixpoint lowercase (s : string) : string :=
  match s with
  | EmptyString => EmptyString
  | String c s' => String (lower c) (lowercase s')
  end.

(** [conv_utils.normalize_padding]. *)
Definition normalize_padding (p : option string) : option padding_mode :=
  match p with
  | None => None
  | Some s =>
      let s := lowercase s in
      if String.eqb s "valid" then Some valid
      else if String.eqb s "same" then Some same
      else None
  end.

(** The names [activations.get] resolves. *)
Definition activation_names : list string :=
  ["relu"; "sigmoid"; "softmax"; "tanh"; "linear"; "elu"; "selu";
   "softplus"; "softsign"; "hard_sigmoid"; "exponential"]%string.

Definition known_activation (name : string) : bool :=
  existsb (String.eqb name) activation_names.

(** [conv_utils.conv_output_length], without dilation. *)
Definition conv_output_length
    (input_length filter_size : Z) (p : padding_mode) (stride : Z) : Z :=
  let output_length :=
    match p with
    | same => input_length
    | valid => input_length - filter_size + 1
    end in
  (output_length + stride - 1) / stride.

(** [conv_utils.deconv_output_length], without output padding. *)
Definition deconv_output_length
    (input_length filter_size : Z) (p : padding_mode) (stride : Z) : Z :=
  match p with
  | valid => input_length * stride + Z.max (filter_size - stride) 0
  | same => input_length * stride
  end.

(** TensorFlow's shape functions subtract the window from the input before
    they divide by the stride: without padding, a window larger than the
    input is refused ("Negative dimension size caused by subtracting"). *)
Definition window_fits (input_length filter_size : Z) (p : padding_mode)
    : bool :=
  match p with
  | same => true
  | valid => filter_size <=? input_length
  end.

Definition positive_pair (p : Z * Z) : bool :=
  andb (0 <? fst p) (0 <? snd p).

Definition nonnegative (s : shape) : bool :=
  andb (andb (0 <=? rows s) (0 <=? cols s)) (0 <=? channels s).

(** A computed shape is a tensor shape only if no dimension is negative. *)
Definition as_shape (s : shape) : keras_exception + shape :=
  if nonnegative s then inr s else inl InvalidArgument.

(** Elementwise merge of two dimensions ([_Merge]): a dimension of 1
    broadcasts. *)
Definition broadcast_dim (i j : Z) : option Z :=
  if i =? 1 then Some j
  else if j =? 1 then Some i
  else if i =? j then Some i
  else None.

Definition broadcast (s1 s2 : shape) : keras_exception + shape :=
  match broadcast_dim (rows s1) (rows s2),
        broadcast_dim (cols s1) (cols s2),
        broadcast_dim (channels s1) (channels s2) with
  | Some h, Some w, Some c => inr (h, w, c)
  | _, _, _ => inl ShapeMismatch
  end.

Fixpoint broadcast_all (acc : shape) (rest : list shape)
    : keras_exception + shape :=
  match rest with
  | [] => inr acc
  | s :: rest' =>
      match broadcast acc s with
      | inr acc' => broadcast_all acc' rest'
      | inl e => inl e
      end
  end.

(** Concatenation along the channel axis: every other axis must agree. *)
Fixpoint concat_all (acc : shape) (rest : list shape)
    : keras_exception + shape :=
  match rest with
  | [] => inr acc
  | s :: rest' =>
      if andb (rows acc =? rows s) (cols acc =? cols s)
      then concat_all (rows acc, cols acc, channels acc + channels s) rest'
      else inl ShapeMismatch
  end.

(** The output shape of a layer called on inputs of the given shapes. *)
Definition compute_output_shape (l : layer) (ins : list shape)
    : keras_exception + shape :=
  match l, ins with
  | Input s, [] => as_shape s
  | Conv2D filters kernel_size strides padding _, [s] =>
      match normalize_padding padding with
      | Some p =>
          if andb (0 <=? filters)
               (andb (positive_pair kernel_size) (positive_pair strides))
          then
            if andb (window_fits (rows s) (fst kernel_size) p)
                    (window_fits (cols s) (snd kernel_size) p)
            then as_shape
                   (conv_output_length (rows s) (fst kernel_size) p (fst strides),
                    conv_output_length (cols s) (snd kernel_size) p (snd strides),
                    filters)
            else inl InvalidArgument
          else inl InvalidArgument
      | None => inl InvalidArgument
      end
  | BatchNormalization _, [s] => inr s
  | Activation name, [s] =>
      if known_activation name then inr s else inl InvalidArgument
  | Concatenate, s1 :: s2 :: rest => concat_all s1 (s2 :: rest)
  | add, s1 :: s2 :: rest => broadcast_all s1 (s2 :: rest)
  | MaxPooling2D pool_size, [s] =>
      if positive_pair pool_size
      then
        if andb (window_fits (rows s) (fst pool_size) valid)
                (window_fits (cols s) (snd pool_size) valid)
        then as_shape
               (conv_output_length (rows s) (fst pool_size) valid (fst pool_size),
                conv_output_length (cols s) (snd pool_size) valid (snd pool_size),
                channels s)
        else inl InvalidArgument
      else inl InvalidArgument
  | Conv2DTranspose filters kernel_size strides padding, [s] =>
      match normalize_padding padding with
      | Some p =>
          if andb (0 <=? filters)
               (andb (positive_pair kernel_size) (positive_pair strides))
          then as_shape
                 (deconv_output_length (rows s) (fst kernel_size) p (fst strides),
                  deconv_output_length (cols s) (snd kernel_size) p (snd strides),
                  filters)
          else inl InvalidArgument
      | None => inl InvalidArgument
      end
  | _, _ => inl InvalidArgument
  end.

(** Calling a layer on tensors: the shape is inferred at once, the call is
    recorded, and the output tensor points at the new record. *)
Definition call (l : layer) (xs : list tensor) : building tensor :=
  fun g =>
    match compute_output_shape l (map tshape xs) with
    | inr s =>
        Ok (mkTensor (List.length g) s,
            g ++ [mkNode l (map tid xs) s])
    | inl e => Err (FrameworkError e)
    end.

(** The layer calls the tensors [wanted] depend on, found by going through
    the record from its newest entry to its oldest.  [newest_first] is the
    record reversed, so the index of an entry is the number of entries
    after it. *)
Fixpoint ancestors (newest_first : list node) (wanted : list nat)
    : list (nat * node) :=
  match newest_first with
  | [] => []
  | n :: older =>
      let i := List.length older in
      if existsb (Nat.eqb i) wanted
      then (i, n) :: ancestors older (inbound n ++ wanted)
      else ancestors older wanted
  end.

Definition is_input (n : node) : bool :=
  match nlayer n with
  | Input _ => true
  | _ => false
  end.

(** Every input layer the outputs depend on must be a declared input. *)
Definition connected (ins : list tensor) (ls : list (nat * node)) : bool :=
  forallb (fun l => orb (negb (is_input (snd l)))
                        (existsb (Nat.eqb (fst l)) (map tid ins))) ls.

(** [K.Model(inputs=..., outputs=...)]: the model owns the layer calls
    its outputs depend on. *)
Definition Model (inputs outputs : list tensor) : building model :=
  fun g =>
    let ls := ancestors (rev g) (map tid outputs) in
    if connected inputs ls
    then Ok (mkModel inputs outputs ls, g)
    else Err (FrameworkError GraphDisconnected).

End K.

(** ** segmed/models/multiresunet.py *)

(** The defaults of the keyword arguments. *)
Definition default_padding : option string := Some "same"%string.
Definition default_strides : Z * Z := (1, 1).
Definition default_activation : option string := Some "relu"%string.
Definition default_alpha : option float := Some 1.67%float.
Definition default_length : option Z := None.

(** [conv2d]: a convolution without bias, batch normalization without
    scale and, unless [activation] is [None], an activation. *)
Definition conv2d (x : K.tensor) (filters : Z) (shape : Z * Z)
    (padding : option string) (strides : Z * Z) (activation : option string)
    : K.building K.tensor :=
  x <- K.call (K.layers.Conv2D filters shape strides padding false) [x] ;;
  x <- K.call (K.layers.BatchNormalization false) [x] ;;
  match activation with
  | None => ret x
  | Some activation => K.call (K.layers.Activation activation) [x]
  end.

(** [MultiResBlock].  Every argument of a call is evaluated before the
    call, so the three [int(...)] of the first convolution run before any
    layer exists. *)
Definition MultiResBlock (u_val : Z) (input : K.tensor) (alpha : option float)
    : K.building K.tensor :=
  weight <- eval (Py.mul_int u_val alpha) ;;
  n1 <- eval (Py.int (weight * 0.167)%float) ;;
  n2 <- eval (Py.int (weight * 0.333)%float) ;;
  n3 <- eval (Py.int (weight * 0.5)%float) ;;
  dimension_conservation <-
    conv2d input (n1 + n2 + n3) (1, 1) (Some "same"%string) default_strides None ;;
  n <- eval (Py.int (weight * 0.167)%float) ;;
  conv3x3 <-
    conv2d input n (3, 3) (Some "same"%string) default_strides (Some "relu"%string) ;;
  n <- eval (Py.int (weight * 0.333)%float) ;;
  conv5x5 <-
    conv2d conv3x3 n (3, 3) (Some "same"%string) default_strides (Some "relu"%string) ;;
  n <- eval (Py.int (weight * 0.5)%float) ;;
  conv7x7 <-
    conv2d conv5x5 n (3, 3) (Some "same"%string) default_strides (Some "relu"%string) ;;
  out <- K.call K.layers.Concatenate [conv3x3; conv5x5; conv7x7] ;;
  out <- K.call (K.layers.BatchNormalization true) [out] ;;
  out <- K.call K.layers.add [dimension_conservation; out] ;;
  out <- K.call (K.layers.Activation "relu") [out] ;;
  out <- K.call (K.layers.BatchNormalization true) [out] ;;
  ret out.

(** One turn of the loop of [ResPath]. *)
Definition ResPath_body (filters : Z) (out : K.tensor) : K.building K.tensor :=
  let residual := out in
  residual <-
    conv2d residual filters (1, 1) (Some "same"%string) default_strides None ;;
  out <-
    conv2d out filters (3, 3) (Some "same"%string) default_strides (Some "relu"%string) ;;
  out <- K.call K.layers.add [residual; out] ;;
  out <- K.call (K.layers.Activation "relu") [out] ;;
  out <- K.call (K.layers.BatchNormalization true) [out] ;;
  ret out.

(** [for _ in range(...)], by the number of turns left. *)
Fixpoint ResPath_loop (turns : nat) (filters : Z) (out : K.tensor)
    : K.building K.tensor :=
  match turns with
  | O => ret out
  | S turns' =>
      out <- ResPath_body filters out ;;
      ResPath_loop turns' filters out
  end.

(** [ResPath]. *)
Definition ResPath (filters : Z) (input : K.tensor) (length : option Z)
    : K.building K.tensor :=
  residual <-
    conv2d input filters (1, 1) (Some "same"%string) default_strides None ;;
  out <-
    conv2d input filters (3, 3) (Some "same"%string) default_strides (Some "relu"%string) ;;
  out <- K.call K.layers.add [residual; out] ;;
  out <- K.call (K.layers.Activation "relu") [out] ;;
  out <- K.call (K.layers.BatchNormalization true) [out] ;;
  match length with
  | None => ret out
  | Some length => ResPath_loop (Py.range (length - 1)) filters out
  end.

(** [MultiResUnet]. *)
Definition MultiResUnet (input_size : shape) : K.building K.model :=
  inputs <- K.call (K.layers.Input input_size) [] ;;

  mresblock_1 <- MultiResBlock 32 inputs default_alpha ;;
  pool_1 <- K.call (K.layers.MaxPooling2D (2, 2)) [mresblock_1] ;;
  mresblock_1 <- ResPath 32 mresblock_1 (Some 4) ;;

  mresblock_2 <- MultiResBlock 64 pool_1 default_alpha ;;
  pool_2 <- K.call (K.layers.MaxPooling2D (2, 2)) [mresblock_2] ;;
  mresblock_2 <- ResPath 64 mresblock_2 (Some 3) ;;

  mresblock_3 <- MultiResBlock 128 pool_2 default_alpha ;;
  pool_3 <- K.call (K.layers.MaxPooling2D (2, 2)) [mresblock_3] ;;
  mresblock_3 <- ResPath 128 mresblock_3 (Some 2) ;;

  mresblock_4 <- MultiResBlock 256 pool_3 default_alpha ;;
  pool_4 <- K.call (K.layers.MaxPooling2D (2, 2)) [mresblock_4] ;;
  mresblock_4 <- ResPath 256 mresblock_4 default_length ;;

  mresblock5 <- MultiResBlock 512 pool_4 default_alpha ;;

  up_6 <- K.call (K.layers.Conv2DTranspose 256 (2, 2) (2, 2) (Some "same"%string))
                 [mresblock5] ;;
  up_6 <- K.call K.layers.Concatenate [up_6; mresblock_4] ;;
  mresblock_6 <- MultiResBlock 256 up_6 default_alpha ;;

  up_7 <- K.call (K.layers.Conv2DTranspose 128 (2, 2) (2, 2) (Some "same"%string))
                 [mresblock_6] ;;
  up_7 <- K.call K.layers.Concatenate [up_7; mresblock_3] ;;
  mresblock7 <- MultiResBlock 128 up_7 default_alpha ;;

  up_8 <- K.call (K.layers.Conv2DTranspose 64 (2, 2) (2, 2) (Some "same"%string))
                 [mresblock7] ;;
  up_8 <- K.call K.layers.Concatenate [up_8; mresblock_2] ;;
  mresblock8 <- MultiResBlock 64 up_8 default_alpha ;;

  up_9 <- K.call (K.layers.Conv2DTranspose 32 (2, 2) (2, 2) (Some "same"%string))
                 [mresblock8] ;;
  up_9 <- K.call K.layers.Concatenate [up_9; mresblock_1] ;;
  mresblock9 <- MultiResBlock 32 up_9 default_alpha ;;

  conv_10 <-
    conv2d mresblock9 1 (1, 1) default_padding default_strides (Some "sigmoid"%string) ;;

  model <- K.Model [inputs] [conv_10] ;;

  ret model.

(** ** The layer calls each function records

    The record a successful run appends, written out: [k] is the number of
    calls recorded before the run, [i] the index of the input tensor. *)

Definition same_padding : option string := Some "same"%string.

(** The calls of [conv2d] with "same" padding and unit strides. *)
Definition conv2d_nodes (k i : nat) (s : shape) (filters : Z) (kernel : Z * Z)
    (activation : option string) : K.graph :=
  let s' := (rows s, cols s, filters) in
  [ K.mkNode (K.layers.Conv2D filters kernel (1, 1) same_padding false) [i] s';
    K.mkNode (K.layers.BatchNormalization false) [k] s' ]
  ++ match activation with
     | None => []
     | Some a => [ K.mkNode (K.layers.Activation a) [(1 + k)%nat] s' ]
     end.

Definition conv2d_out (k : nat) (activation : option string) : nat :=
  match activation with
  | None => (1 + k)%nat
  | Some _ => (2 + k)%nat
  end.

(** A residual unit of [ResPath]: a 1x1 shortcut, a 3x3 feature map, their
    sum, relu, batch normalization. *)
Definition residual_unit (k i : nat) (s : shape) (filters : Z) : K.graph :=
  let s' := (rows s, cols s, filters) in
  conv2d_nodes k i s filters (1, 1) None
  ++ conv2d_nodes (2 + k) i s filters (3, 3) (Some "relu"%string)
  ++ [ K.mkNode K.layers.add [(1 + k)%nat; (4 + k)%nat] s';
       K.mkNode (K.layers.Activation "relu") [(5 + k)%nat] s';
       K.mkNode (K.layers.BatchNormalization true) [(6 + k)%nat] s' ].

(** [n] residual units in a row, each fed by the one before. *)
Fixpoint residual_units (n : nat) (k i : nat) (s : shape) (filters : Z)
    : K.graph :=
  match n with
  | O => []
  | S n' =>
      residual_unit k i s filters
      ++ residual_units n' (8 + k) (7 + k) (rows s, cols s, filters) filters
  end.

(** The calls of [MultiResBlock] whose three branches have [n1], [n2] and
    [n3] filters. *)
Definition MultiResBlock_nodes (k i : nat) (s : shape) (n1 n2 n3 : Z)
    : K.graph :=
  let branch n := (rows s, cols s, n) in
  let s' := (rows s, cols s, n1 + n2 + n3) in
  conv2d_nodes k i s (n1 + n2 + n3) (1, 1) None
  ++ conv2d_nodes (2 + k) i s n1 (3, 3) (Some "relu"%string)
  ++ conv2d_nodes (5 + k) (4 + k) (branch n1) n2 (3, 3) (Some "relu"%string)
  ++ conv2d_nodes (8 + k) (7 + k) (branch n2) n3 (3, 3) (Some "relu"%string)
  ++ [ K.mkNode K.layers.Concatenate [(4 + k)%nat; (7 + k)%nat; (10 + k)%nat] s';
       K.mkNode (K.layers.BatchNormalization true) [(11 + k)%nat] s';
       K.mkNode K.layers.add [(1 + k)%nat; (12 + k)%nat] s';
       K.mkNode (K.layers.Activation "relu") [(13 + k)%nat] s';
       K.mkNode (K.layers.BatchNormalization true) [(14 + k)%nat] s' ].

(** ** What the framework accepts, and the filter arithmetic *)

(** What the framework accepts of a "same"-padded, unit-stride convolution. *)
Definition conv_ok (filters : Z) (kernel : Z * Z) (s : shape) : bool :=
  andb (andb (0 <=? filters) (K.positive_pair kernel))
       (andb (0 <=? rows s) (0 <=? cols s)).

Definition activation_ok (activation : option string) : bool :=
  match activation with
  | None => true
  | Some a => K.known_activation a
  end.

(** What the framework accepts of the four convolutions of a block. *)
Definition block_ok (n1 n2 n3 : Z) (s : shape) : bool :=
  andb (conv_ok (n1 + n2 + n3) (1, 1) s)
       (andb (conv_ok n1 (3, 3) s)
             (andb (conv_ok n2 (3, 3) s) (conv_ok n3 (3, 3) s))).

(** The filter arithmetic of [MultiResBlock], on its own. *)
Definition block_filters (u_val : Z) (alpha : option float)
    : py_exception + (Z * Z * Z) :=
  match Py.mul_int u_val alpha with
  | inl e => inl e
  | inr weight =>
      match Py.int (weight * 0.167)%float with
      | inl e => inl e
      | inr n1 =>
          match Py.int (weight * 0.333)%float with
          | inl e => inl e
          | inr n2 =>
              match Py.int (weight * 0.5)%float with
              | inl e => inl e
              | inr n3 => inr (n1, n2, n3)
              end
          end
      end
  end.

(** ** The graph of [MultiResUnet]

    The 240 layer calls of a run on an input of [16 a] by [16 b] pixels
    with [c] channels: the spatial sizes of the five levels are [a], [2 a],
    ..., [16 a], and the filter counts are those [MultiResBlock] derives
    from 32, 64, 128, 256 and 512. *)

Definition twice (n : Z) : Z := 2 * n.

Definition sixteenth (n : Z) : Z := n / 16.

Definition pool_node (i : nat) (s : shape) : K.node :=
  K.mkNode (K.layers.MaxPooling2D (2, 2)) [i] s.

Definition up_node (i : nat) (filters : Z) (s : shape) : K.node :=
  K.mkNode (K.layers.Conv2DTranspose filters (2, 2) (2, 2) same_padding) [i] s.

Definition concat_node (i j : nat) (s : shape) : K.node :=
  K.mkNode K.layers.Concatenate [i; j] s.

Definition unet_nodes (k : nat) (a b c : Z) : K.graph :=
  let at4 n := (a, b, n) in
  let at3 n := (twice a, twice b, n) in
  let at2 n := (twice (twice a), twice (twice b), n) in
  let at1 n := (twice (twice (twice a)), twice (twice (twice b)), n) in
  let at0 n :=
    (twice (twice (twice (twice a))), twice (twice (twice (twice b))), n) in
  [ K.mkNode (K.layers.Input (at0 c)) [] (at0 c) ]
  ++ MultiResBlock_nodes (1 + k) k (at0 c) 8 17 26
  ++ [ pool_node (16 + k) (at1 51) ]
  ++ residual_units 4 (18 + k) (16 + k) (at0 51) 32
  ++ MultiResBlock_nodes (50 + k) (17 + k) (at1 51) 17 35 53
  ++ [ pool_node (65 + k) (at2 105) ]
  ++ residual_units 3 (67 + k) (65 + k) (at1 105) 64
  ++ MultiResBlock_nodes (91 + k) (66 + k) (at2 105) 35 71 106
  ++ [ pool_node (106 + k) (at3 212) ]
  ++ residual_units 2 (108 + k) (106 + k) (at2 212) 128
  ++ MultiResBlock_nodes (124 + k) (107 + k) (at3 212) 71 142 213
  ++ [ pool_node (139 + k) (at4 426) ]
  ++ residual_units 1 (141 + k) (139 + k) (at3 426) 256
  ++ MultiResBlock_nodes (149 + k) (140 + k) (at4 426) 142 284 427
  ++ [ up_node (164 + k) 256 (at3 256); concat_node (165 + k) (148 + k) (at3 512) ]
  ++ MultiResBlock_nodes (167 + k) (166 + k) (at3 512) 71 142 213
  ++ [ up_node (182 + k) 128 (at2 128); concat_node (183 + k) (123 + k) (at2 256) ]
  ++ MultiResBlock_nodes (185 + k) (184 + k) (at2 256) 35 71 106
  ++ [ up_node (200 + k) 64 (at1 64); concat_node (201 + k) (90 + k) (at1 128) ]
  ++ MultiResBlock_nodes (203 + k) (202 + k) (at1 128) 17 35 53
  ++ [ up_node (218 + k) 32 (at0 32); concat_node (219 + k) (49 + k) (at0 64) ]
  ++ MultiResBlock_nodes (221 + k) (220 + k) (at0 64) 8 17 26
  ++ conv2d_nodes (237 + k) (236 + k) (at0 51) 1 (1, 1) (Some "sigmoid"%string).

(** The entries of a record with their indices, the first of which is [k]. *)
Fixpoint indexed (k : nat) (g : K.graph) : list (nat * K.node) :=
  match g with
  | [] => []
  | n :: g' => (k, n) :: indexed (S k) g'
  end.

Definition unet_input (k : nat) (a b c : Z) : K.tensor :=
  K.mkTensor k
    (twice (twice (twice (twice a))), twice (twice (twice (twice b))), c).

Definition unet_output (k : nat) (a b : Z) : K.tensor :=
  K.mkTensor (239 + k)
    (twice (twice (twice (twice a))), twice (twice (twice (twice b))), 1).

Definition unet_model (k : nat) (a b c : Z) : K.model :=
  K.mkModel [unet_input k a b c] [unet_output k a b]
    (rev (indexed k (unet_nodes k a b c))).

(** ** Moving a record behind an older one

    Layer calls recorded after [k] older ones are the calls of a fresh
    record with every index raised by [k]. *)

Definition shift_node (k : nat) (n : K.node) : K.node :=
  K.mkNode (K.nlayer n) (map (fun i => (i + k)%nat) (K.inbound n))
    (K.output_shape n).

Definition shift_tensor (k : nat) (t : K.tensor) : K.tensor :=
  K.mkTensor (K.tid t + k) (K.tshape t).

Definition shift_entry (k : nat) (l : nat * K.node) : nat * K.node :=
  ((fst l + k)%nat, shift_node k (snd l)).

Definition shift_model (k : nat) (m : K.model) : K.model :=
  K.mkModel (map (shift_tensor k) (K.inputs m))
    (map (shift_tensor k) (K.outputs m))
    (map (shift_entry k) (K.model_layers m)).

(** ** Properties of a model's graph *)

(** The layer call of a model that produced the tensor with index [i]. *)
Definition producer (ls : list (nat * K.node)) (i : nat) : option K.node :=
  option_map snd (find (fun e => Nat.eqb (fst e) i) ls).

(** The shapes a layer call was given. *)
Definition input_shapes (ls : list (nat * K.node)) (n : K.node)
    : list (option shape) :=
  map (fun i => option_map K.output_shape (producer ls i)) (K.inbound n).

Definition same_spatial (s1 s2 : shape) : Prop :=
  rows s1 = rows s2 /\ cols s1 = cols s2.

(** What shape compatibility asks of one layer call: a pooling halves the
    spatial axes, a transposed convolution doubles them, and the operands
    of a concatenation or of a sum agree on them. *)
Definition compatible (ls : list (nat * K.node)) (n : K.node) : Prop :=
  match K.nlayer n with
  | K.layers.MaxPooling2D _ =>
      exists s, input_shapes ls n = [Some s]
        /\ 2 * rows (K.output_shape n) = rows s
        /\ 2 * cols (K.output_shape n) = cols s
  | K.layers.Conv2DTranspose _ _ _ _ =>
      exists s, input_shapes ls n = [Some s]
        /\ rows (K.output_shape n) = 2 * rows s
        /\ cols (K.output_shape n) = 2 * cols s
  | K.layers.Concatenate | K.layers.add =>
      (2 <= List.length (K.inbound n))%nat
      /\ Forall (fun o => exists s, o = Some s
                            /\ same_spatial s (K.output_shape n))
           (input_shapes ls n)
  | _ => True
  end.

Definition is_pooling (n : K.node) : bool :=
  match K.nlayer n with
  | K.layers.MaxPooling2D _ => true
  | _ => false
  end.

Definition is_transposed (n : K.node) : bool :=
  match K.nlayer n with
  | K.layers.Conv2DTranspose _ _ _ _ => true
  | _ => false
  end.

Definition count_layers (p : K.node -> bool) (ls : list (nat * K.node)) : nat :=
  List.length (filter (fun e => p (snd e)) ls).

(** ** The operations of the graph and their order *)

(** The kinds of tensor-producing operation. *)
Inductive operation :=
| input_placeholder
| convolution
| batch_normalization
| activation
| concatenation
| addition
| pooling
| transposed_convolution.

Definition operation_of (l : K.layers.layer) : operation :=
  match l with
  | K.layers.Input _ => input_placeholder
  | K.layers.Conv2D _ _ _ _ _ => convolution
  | K.layers.BatchNormalization _ => batch_normalization
  | K.layers.Activation _ => activation
  | K.layers.Concatenate => concatenation
  | K.layers.add => addition
  | K.layers.MaxPooling2D _ => pooling
  | K.layers.Conv2DTranspose _ _ _ _ => transposed_convolution
  end.

(** The operations the spec lists. *)
Definition listed_operations : list operation :=
  [convolution; batch_normalization; pooling; concatenation;
   transposed_convolution].

(** The operations [MultiResUnet] uses. *)
Definition used_operations : list operation :=
  [input_placeholder; convolution; batch_normalization; activation;
   concatenation; addition; pooling; transposed_convolution].

Definition operations_of (ls : list (nat * K.node)) : list operation :=
  map (fun e => operation_of (K.nlayer (snd e))) ls.

(** Layer call [j] was applied to the output of layer call [i]. *)
Definition reads (ls : list (nat * K.node)) (j i : nat) : Prop :=
  exists n, In (j, n) ls /\ In i (K.inbound n).

(** Every layer call of [ls] was applied to outputs of earlier calls of
    [ls] only, checked entry by entry. *)
Definition earlier_only (ls : list (nat * K.node)) : bool :=
  forallb (fun e =>
    forallb (fun i =>
      andb (Nat.ltb i (fst e)) (existsb (fun e' => Nat.eqb (fst e') i) ls))
      (K.inbound (snd e))) ls.

(** ** The U shape, as the spec words it *)

(** An encoder level: the [u_val] of its block and the length of the
    [ResPath] on its skip connection. *)
Definition encoder_levels : list (Z * option Z) :=
  [(32, Some 4); (64, Some 3); (128, Some 2); (256, default_length)].

Definition bottleneck_u_val : Z := 512.

(** A U over the given levels: each level is a [MultiResBlock], a 2x2
    max-pooling that feeds the levels below and a [ResPath] on the skip
    connection; under the last level sits the bottleneck block; on the way
    up each level is a 2x2-stride transposed convolution, a concatenation
    with the [ResPath] output of the same level, and a [MultiResBlock]
    with the level's [u_val]. *)
Fixpoint encoder_decoder (levels : list (Z * option Z)) (x : K.tensor)
    : K.building K.tensor :=
  match levels with
  | [] => MultiResBlock bottleneck_u_val x default_alpha
  | (u_val, path_length) :: deeper =>
      block <- MultiResBlock u_val x default_alpha ;;
      pool <- K.call (K.layers.MaxPooling2D (2, 2)) [block] ;;
      skip <- ResPath u_val block path_length ;;
      below <- encoder_decoder deeper pool ;;
      up <- K.call (K.layers.Conv2DTranspose u_val (2, 2) (2, 2)
                      (Some "same"%string)) [below] ;;
      merged <- K.call K.layers.Concatenate [up; skip] ;;
      MultiResBlock u_val merged default_alpha
  end.

(** The whole network: the input layer, the U, the final 1-filter sigmoid
    [conv2d], and the model from the input to that convolution. *)
Definition U_shaped_network (input_size : shape) : K.building K.model :=
  inputs <- K.call (K.layers.Input input_size) [] ;;
  decoded <- encoder_decoder encoder_levels inputs ;;
  final <- conv2d decoded 1 (1, 1) default_padding default_strides
             (Some "sigmoid"%string) ;;
  K.Model [inputs] [final].

(** ** Convolutions, sums and residual units of a record *)

(** The kernel size and the filter count of each convolution of a record,
    in the order of the calls. *)
Definition convolutions (g : K.graph) : list (Z * Z * Z) :=
  flat_map (fun n =>
    match K.nlayer n with
    | K.layers.Conv2D filters kernel_size _ _ _ => [(kernel_size, filters)]
    | _ => []
    end) g.

Definition is_add (n : K.node) : bool :=
  match K.nlayer n with
  | K.layers.add => true
  | _ => false
  end.

(** The number of residual units [ResPath] is asked for, in the words of
    the spec: one when [length] is [None], [1 + max(0, length - 1)] when it
    is an integer. *)
Definition residual_unit_count (length : option Z) : nat :=
  match length with
  | None => 1%nat
  | Some n => (1 + Z.to_nat (Z.max 0 (n - 1)))%nat
  end.

(** ** Further properties of a model's graph *)

Definition pair_eqb (p q : Z * Z) : bool :=
  andb (fst p =? fst q) (snd p =? snd q).

Definition is_same_padding (p : option string) : bool :=
  match p with
  | Some s => String.eqb s "same"
  | None => false
  end.

(** The layer of a call is a batch normalization without scale that was
    applied to the output of call [j] alone. *)
Definition normalizes (j : nat) (n : K.node) : bool :=
  match K.nlayer n, K.inbound n with
  | K.layers.BatchNormalization false, [i] => Nat.eqb i j
  | _, _ => false
  end.

(** A convolution as [conv2d] makes it: no bias, "same" padding, unit
    strides, a 1x1 or 3x3 kernel, and a batch normalization without scale
    recorded right after it on its output.  Entries that are no
    convolution pass. *)
Definition conv2d_made (ls : list (nat * K.node)) (e : nat * K.node) : bool :=
  match K.nlayer (snd e) with
  | K.layers.Conv2D _ kernel_size strides padding use_bias =>
      andb (negb use_bias)
        (andb (is_same_padding padding)
           (andb (pair_eqb strides (1, 1))
              (andb (orb (pair_eqb kernel_size (1, 1))
                         (pair_eqb kernel_size (3, 3)))
                    (match producer ls (S (fst e)) with
                     | Some n' => normalizes (fst e) n'
                     | None => false
                     end))))
  | _ => true
  end.

Definition operation_eqb (a b : operation) : bool :=
  match a, b with
  | input_placeholder, input_placeholder
  | convolution, convolution
  | batch_normalization, batch_normalization
  | activation, activation
  | concatenation, concatenation
  | addition, addition
  | pooling, pooling
  | transposed_convolution, transposed_convolution => true
  | _, _ => false
  end.

(** How many layers of a model perform the operation [op]. *)
Definition count_operation (ls : list (nat * K.node)) (op : operation) : nat :=
  List.length (filter (operation_eqb op) (operations_of ls)).

(** The activation functions of a model, newest first. *)
Definition activations_of (ls : list (nat * K.node)) : list string :=
  flat_map (fun e =>
    match K.nlayer (snd e) with
    | K.layers.Activation a => [a]
    | _ => []
    end) ls.

(** A concatenation of two tensors. *)
Definition is_join (n : K.node) : bool :=
  match K.nlayer n, K.inbound n with
  | K.layers.Concatenate, [_; _] => true
  | _, _ => false
  end.

(** *** Skip connections

    What follows reads a model's graph backwards, from a tensor to the
    calls that made it. *)

Definition is_normalization (scale : bool) (l : K.layers.layer) : bool :=
  match l with
  | K.layers.BatchNormalization s => Bool.eqb s scale
  | _ => false
  end.

Definition is_relu (l : K.layers.layer) : bool :=
  match l with
  | K.layers.Activation a => String.eqb a "relu"
  | _ => false
  end.

Definition is_sum (l : K.layers.layer) : bool :=
  match l with
  | K.layers.add => true
  | _ => false
  end.

(** The convolutions [conv2d] makes with the given kernel. *)
Definition is_convolution (kernel : Z * Z) (l : K.layers.layer) : bool :=
  match l with
  | K.layers.Conv2D _ kernel_size strides padding use_bias =>
      andb (pair_eqb kernel_size kernel)
        (andb (pair_eqb strides (1, 1))
           (andb (is_same_padding padding) (negb use_bias)))
  | _ => false
  end.

(** The tensors call [t] was applied to, when its layer passes [p]. *)
Definition operands (ls : list (nat * K.node)) (p : K.layers.layer -> bool)
    (t : nat) : option (list nat) :=
  match producer ls t with
  | Some n => if p (K.nlayer n) then Some (K.inbound n) else None
  | None => None
  end.

(** [t] is what [conv2d x filters kernel] returned, with a relu
    activation when [activated] and with [activation=None] otherwise: the
    result is [x]. *)
Definition conv2d_operand (ls : list (nat * K.node)) (kernel : Z * Z)
    (activated : bool) (t : nat) : option nat :=
  match (if activated then operands ls is_relu t else Some [t]) with
  | Some [b] =>
      match operands ls (is_normalization false) b with
      | Some [c] =>
          match operands ls (is_convolution kernel) c with
          | Some [x] => Some x
          | _ => None
          end
      | _ => None
      end
  | _ => None
  end.

(** [t] is the output of a residual unit of [ResPath]: the scaled batch
    normalization of the relu of the sum of a 1x1 [conv2d] without
    activation and a 3x3 [conv2d] with relu, both of one tensor, which is
    the result. *)
Definition unit_operand (ls : list (nat * K.node)) (t : nat) : option nat :=
  match operands ls (is_normalization true) t with
  | Some [a] =>
      match operands ls is_relu a with
      | Some [s] =>
          match operands ls is_sum s with
          | Some [r; o] =>
              match conv2d_operand ls (1, 1) false r,
                    conv2d_operand ls (3, 3) true o with
              | Some x, Some y => if Nat.eqb x y then Some x else None
              | _, _ => None
              end
          | _ => None
          end
      | _ => None
      end
  | _ => None
  end.

(** [t] is the output of [units] residual units in a row: the result is
    the tensor the first of them was applied to. *)
Fixpoint path_start (ls : list (nat * K.node)) (units : nat) (t : nat)
    : option nat :=
  match units with
  | O => Some t
  | S units' =>
      match unit_operand ls t with
      | Some x => path_start ls units' x
      | None => None
      end
  end.

(** The calls that were applied to tensor [t], newest first. *)
Definition readers (ls : list (nat * K.node)) (t : nat) : list nat :=
  map fst (filter (fun e => existsb (Nat.eqb t) (K.inbound (snd e))) ls).

(** Some pooling was applied to tensor [t]. *)
Definition pooled (ls : list (nat * K.node)) (t : nat) : bool :=
  existsb (fun q => match producer ls q with
                    | Some n => is_pooling n
                    | None => false
                    end) (readers ls t).

(** Entry [e] is a concatenation that joins a skip connection over a
    [ResPath] of [units] residual units: its first operand comes from a
    transposed convolution; its second is the output of [units] residual
    units in a row, no more, that start from a tensor the encoder pools,
    and nothing else reads it; the two operands have one shape, and the
    result has twice their channels. *)
Definition joins_path (ls : list (nat * K.node)) (units : nat)
    (e : nat * K.node) : Prop :=
  exists i1 i2 up skip block,
    K.nlayer (snd e) = K.layers.Concatenate
    /\ K.inbound (snd e) = [i1; i2]
    /\ producer ls i1 = Some up
    /\ is_transposed up = true
    /\ producer ls i2 = Some skip
    /\ K.output_shape up = K.output_shape skip
    /\ channels (K.output_shape (snd e)) = 2 * channels (K.output_shape up)
    /\ path_start ls units i2 = Some block
    /\ unit_operand ls block = None
    /\ pooled ls block = true
    /\ readers ls i2 = [fst e].

(** A shape is at one of the five resolutions of a network on images of
    [h] rows and [w] columns: its rows and columns are those of the images
    divided by 1, 2, 4, 8 or 16. *)
Definition at_level (h w : Z) (s : shape) : Prop :=
  exists k, 0 <= k <= 4 /\ h = 2 ^ k * rows s /\ w = 2 ^ k * cols s.

(** The sizes the four poolings accept: no entry is negative, and the
    rows and the columns can be halved three times and still hold a 2x2
    window. *)
Definition poolable (s : shape) : bool :=
  andb (K.nonnegative s) (andb (16 <=? rows s) (16 <=? cols s)).

(** * Lemmas and theorems *)

(** ** Basic facts about the monad *)

Lemma bind_Ok {S A B} (m : state_result S A) (f : A -> state_result S B) s a s' :
  m s = Ok (a, s') -> bind m f s = f a s'.
Proof. unfold bind. intros ->. reflexivity. Qed.

Lemma bind_Err {S A B} (m : state_result S A) (f : A -> state_result S B) s e :
  m s = Err e -> bind m f s = Err e.
Proof. unfold bind. intros ->. reflexivity. Qed.


Lemma bind_ret {S A} (m : state_result S A) s : bind m ret s = m s.
Proof. unfold bind, ret. destruct (m s) as [[a s']|e]; reflexivity. Qed.

Lemma bind_eval_inr {S A B} (v : A) (f : A -> state_result S B) s :
  bind (eval (inr v)) f s = f v s.
Proof. reflexivity. Qed.

(** ** What a single layer call does *)

Lemma call_Ok l xs s g :
  K.compute_output_shape l (map K.tshape xs) = inr s ->
  K.call l xs g =
  Ok (K.mkTensor (List.length g) s, g ++ [K.mkNode l (map K.tid xs) s]).
Proof. unfold K.call. intros ->. reflexivity. Qed.

Lemma call_Err l xs e g :
  K.compute_output_shape l (map K.tshape xs) = inl e ->
  K.call l xs g = Err (FrameworkError e).
Proof. unfold K.call. intros ->. reflexivity. Qed.

Lemma conv_output_length_same_1 n k : K.conv_output_length n k K.same 1 = n.
Proof.
  unfold K.conv_output_length.
  replace (n + 1 - 1) with n by lia. apply Z.div_1_r.
Qed.

Lemma Conv2D_same_shape filters kernel use_bias s :
  K.compute_output_shape
    (K.layers.Conv2D filters kernel (1, 1) same_padding use_bias) [s] =
  if conv_ok filters kernel s then inr (rows s, cols s, filters)
  else inl InvalidArgument.
Proof.
  unfold K.compute_output_shape, conv_ok.
  change (K.normalize_padding same_padding) with (Some K.same).
  change (K.positive_pair (1, 1)) with true.
  cbn [fst snd K.window_fits andb].
  rewrite !conv_output_length_same_1, andb_true_r.
  unfold K.as_shape, K.nonnegative, rows, cols, channels; cbn [fst snd].
  destruct (0 <=? filters), (K.positive_pair kernel),
    (0 <=? fst (fst s)), (0 <=? snd (fst s)); reflexivity.
Qed.

Lemma length_snoc {A} (g l : list A) :
  List.length (g ++ l) = (List.length l + List.length g)%nat.
Proof. rewrite length_app. apply Nat.add_comm. Qed.

Lemma BatchNormalization_call scale x g :
  K.call (K.layers.BatchNormalization scale) [x] g =
  Ok (K.mkTensor (List.length g) (K.tshape x),
      g ++ [K.mkNode (K.layers.BatchNormalization scale) [K.tid x] (K.tshape x)]).
Proof. apply call_Ok. reflexivity. Qed.

Lemma Activation_call a x g :
  K.known_activation a = true ->
  K.call (K.layers.Activation a) [x] g =
  Ok (K.mkTensor (List.length g) (K.tshape x),
      g ++ [K.mkNode (K.layers.Activation a) [K.tid x] (K.tshape x)]).
Proof.
  intros Ha. apply call_Ok. cbn [K.compute_output_shape map].
  rewrite Ha. reflexivity.
Qed.

Lemma Conv2D_same_call filters kernel use_bias x g :
  K.call (K.layers.Conv2D filters kernel (1, 1) same_padding use_bias) [x] g =
  if conv_ok filters kernel (K.tshape x)
  then Ok (K.mkTensor (List.length g)
             (rows (K.tshape x), cols (K.tshape x), filters),
           g ++ [K.mkNode
                   (K.layers.Conv2D filters kernel (1, 1) same_padding use_bias)
                   [K.tid x]
                   (rows (K.tshape x), cols (K.tshape x), filters)])
  else Err (FrameworkError InvalidArgument).
Proof.
  pose proof (Conv2D_same_shape filters kernel use_bias (K.tshape x)) as Hs.
  destruct (conv_ok filters kernel (K.tshape x)).
  - apply call_Ok. exact Hs.
  - apply call_Err. exact Hs.
Qed.

(** Adding two tensors of the same shape, and concatenating tensors that
    agree on the spatial axes, always succeeds. *)
Lemma broadcast_dim_same i : K.broadcast_dim i i = Some i.
Proof.
  unfold K.broadcast_dim. destruct (i =? 1); [reflexivity|].
  rewrite Z.eqb_refl. reflexivity.
Qed.

Lemma add_same_call x y g :
  K.tshape y = K.tshape x ->
  K.call K.layers.add [x; y] g =
  Ok (K.mkTensor (List.length g) (K.tshape x),
      g ++ [K.mkNode K.layers.add [K.tid x; K.tid y] (K.tshape x)]).
Proof.
  intros Hy. apply call_Ok. cbn [map K.compute_output_shape K.broadcast_all].
  rewrite Hy. unfold K.broadcast. rewrite !broadcast_dim_same.
  destruct (K.tshape x) as [[h w] c]. reflexivity.
Qed.

(** ** What [conv2d] does *)

Lemma conv2d_same x filters kernel activation g :
  activation_ok activation = true ->
  conv2d x filters kernel same_padding (1, 1) activation g =
  if conv_ok filters kernel (K.tshape x)
  then Ok (K.mkTensor (conv2d_out (List.length g) activation)
             (rows (K.tshape x), cols (K.tshape x), filters),
           g ++ conv2d_nodes (List.length g) (K.tid x) (K.tshape x)
                  filters kernel activation)
  else Err (FrameworkError InvalidArgument).
Proof.
  intros Ha. unfold conv2d, bind.
  rewrite Conv2D_same_call.
  destruct (conv_ok filters kernel (K.tshape x)); [|reflexivity].
  rewrite BatchNormalization_call.
  destruct activation as [a|]; unfold conv2d_out, conv2d_nodes.
  - rewrite Activation_call by exact Ha.
    rewrite !length_snoc, <- !app_assoc. reflexivity.
  - unfold ret. rewrite !length_snoc, <- !app_assoc. reflexivity.
Qed.

Lemma conv_ok_kernel filters kernel s :
  K.positive_pair kernel = true ->
  conv_ok filters kernel s = conv_ok filters (1, 1) s.
Proof.
  intros Hk. unfold conv_ok. rewrite Hk. reflexivity.
Qed.

Lemma conv_ok_spatial filters kernel s c :
  conv_ok filters kernel (rows s, cols s, c) = conv_ok filters kernel s.
Proof. reflexivity. Qed.

(** Brings the record and the indices on both sides of an equation to one
    form. *)
Ltac normalize_record :=
  rewrite ?length_snoc;
  cbn [conv2d_nodes conv2d_out residual_unit residual_units
       MultiResBlock_nodes List.length app Nat.add
       K.tshape K.tid rows cols channels fst snd];
  rewrite <- ?app_assoc;
  cbn [app].

(** ** What [ResPath] does *)

Lemma ResPath_body_run filters x g :
  ResPath_body filters x g =
  if conv_ok filters (1, 1) (K.tshape x)
  then Ok (K.mkTensor (7 + List.length g)
             (rows (K.tshape x), cols (K.tshape x), filters),
           g ++ residual_unit (List.length g) (K.tid x) (K.tshape x) filters)
  else Err (FrameworkError InvalidArgument).
Proof.
  unfold ResPath_body, bind.
  rewrite conv2d_same by reflexivity.
  destruct (conv_ok filters (1, 1) (K.tshape x)) eqn:Hok; [|reflexivity].
  rewrite conv2d_same by reflexivity.
  rewrite (conv_ok_kernel filters (3, 3)), Hok by reflexivity.
  rewrite add_same_call by reflexivity.
  rewrite Activation_call by reflexivity.
  rewrite BatchNormalization_call.
  unfold ret. normalize_record. reflexivity.
Qed.

Lemma residual_unit_length k i s filters :
  List.length (residual_unit k i s filters) = 8%nat.
Proof. reflexivity. Qed.

Lemma ResPath_loop_run turns : forall filters x g,
  ResPath_loop (S turns) filters x g =
  if conv_ok filters (1, 1) (K.tshape x)
  then Ok (K.mkTensor (7 + 8 * turns + List.length g)
             (rows (K.tshape x), cols (K.tshape x), filters),
           g ++ residual_units (S turns) (List.length g) (K.tid x)
                  (K.tshape x) filters)
  else Err (FrameworkError InvalidArgument).
Proof.
  induction turns as [|turns IH]; intros filters x g.
  - cbn [ResPath_loop residual_units]. unfold bind, ret.
    rewrite ResPath_body_run, app_nil_r.
    destruct (conv_ok filters (1, 1) (K.tshape x)); reflexivity.
  - change (ResPath_loop (S (S turns)) filters x g)
      with (bind (ResPath_body filters x)
              (fun out => ResPath_loop (S turns) filters out) g).
    unfold bind. rewrite ResPath_body_run.
    destruct (conv_ok filters (1, 1) (K.tshape x)) eqn:Hok; [|reflexivity].
    rewrite IH. cbn [K.tshape K.tid]. rewrite conv_ok_spatial, Hok.
    rewrite length_snoc, residual_unit_length, <- app_assoc.
    f_equal. f_equal. f_equal. lia.
Qed.

Lemma ResPath_run filters x length g :
  ResPath filters x length g =
  let units :=
    match length with
    | None => 1%nat
    | Some n => (1 + Py.range (n - 1))%nat
    end in
  if conv_ok filters (1, 1) (K.tshape x)
  then Ok (K.mkTensor (8 * units - 1 + List.length g)
             (rows (K.tshape x), cols (K.tshape x), filters),
           g ++ residual_units units (List.length g) (K.tid x)
                  (K.tshape x) filters)
  else Err (FrameworkError InvalidArgument).
Proof.
  assert (Hfirst : forall turns,
    ResPath_loop (S turns) filters x g =
    bind (ResPath_body filters x)
      (fun out => ResPath_loop turns filters out) g) by reflexivity.
  assert (Hunfold : ResPath filters x length g =
    bind (ResPath_body filters x)
      (fun out => match length with
                  | None => ret out
                  | Some n => ResPath_loop (Py.range (n - 1)) filters out
                  end) g).
  { unfold ResPath, ResPath_body, bind. 
    destruct (conv2d x filters (1, 1) (Some "same"%string) default_strides None g)
      as [[t1 g1]|]; [|reflexivity].
    destruct (conv2d x filters (3, 3) (Some "same"%string) default_strides
                (Some "relu"%string) g1) as [[t2 g2]|]; [|reflexivity].
    destruct (K.call K.layers.add [t1; t2] g2) as [[t3 g3]|]; [|reflexivity].
    destruct (K.call (K.layers.Activation "relu") [t3] g3) as [[t4 g4]|];
      [|reflexivity].
    destruct (K.call (K.layers.BatchNormalization true) [t4] g4) as [[t5 g5]|];
      reflexivity. }
  rewrite Hunfold. cbv zeta.
  destruct length as [n|].
  - rewrite <- Hfirst, ResPath_loop_run.
    replace (8 * (1 + Py.range (n - 1)) - 1)%nat
      with (7 + 8 * Py.range (n - 1))%nat by lia.
    reflexivity.
  - change (bind (ResPath_body filters x) (fun out => ret out) g)
      with (ResPath_loop 1 filters x g).
    rewrite ResPath_loop_run. reflexivity.
Qed.

(** ** What [MultiResBlock] does *)

Lemma Concatenate3_call x y z g :
  rows (K.tshape y) = rows (K.tshape x) ->
  cols (K.tshape y) = cols (K.tshape x) ->
  rows (K.tshape z) = rows (K.tshape x) ->
  cols (K.tshape z) = cols (K.tshape x) ->
  K.call K.layers.Concatenate [x; y; z] g =
  Ok (K.mkTensor (List.length g)
        (rows (K.tshape x), cols (K.tshape x),
         channels (K.tshape x) + channels (K.tshape y) + channels (K.tshape z)),
      g ++ [K.mkNode K.layers.Concatenate [K.tid x; K.tid y; K.tid z]
              (rows (K.tshape x), cols (K.tshape x),
               channels (K.tshape x) + channels (K.tshape y)
               + channels (K.tshape z))]).
Proof.
  intros Hy1 Hy2 Hz1 Hz2. apply call_Ok.
  cbn [map K.compute_output_shape K.concat_all rows cols channels fst snd].
  unfold rows, cols in *.
  rewrite Hy1, Hy2, Hz1, Hz2, !Z.eqb_refl. reflexivity.
Qed.

Lemma Concatenate2_call x y g :
  rows (K.tshape y) = rows (K.tshape x) ->
  cols (K.tshape y) = cols (K.tshape x) ->
  K.call K.layers.Concatenate [x; y] g =
  Ok (K.mkTensor (List.length g)
        (rows (K.tshape x), cols (K.tshape x),
         channels (K.tshape x) + channels (K.tshape y)),
      g ++ [K.mkNode K.layers.Concatenate [K.tid x; K.tid y]
              (rows (K.tshape x), cols (K.tshape x),
               channels (K.tshape x) + channels (K.tshape y))]).
Proof.
  intros Hy1 Hy2. apply call_Ok.
  cbn [map K.compute_output_shape K.concat_all rows cols channels fst snd].
  unfold rows, cols in *.
  rewrite Hy1, Hy2, !Z.eqb_refl. reflexivity.
Qed.

Lemma MultiResBlock_run u_val x alpha weight n1 n2 n3 g :
  Py.mul_int u_val alpha = inr weight ->
  Py.int (weight * 0.167)%float = inr n1 ->
  Py.int (weight * 0.333)%float = inr n2 ->
  Py.int (weight * 0.5)%float = inr n3 ->
  MultiResBlock u_val x alpha g =
  if block_ok n1 n2 n3 (K.tshape x)
  then Ok (K.mkTensor (15 + List.length g)
             (rows (K.tshape x), cols (K.tshape x), n1 + n2 + n3),
           g ++ MultiResBlock_nodes (List.length g) (K.tid x) (K.tshape x)
                  n1 n2 n3)
  else Err (FrameworkError InvalidArgument).
Proof.
  intros Hw H1 H2 H3. unfold MultiResBlock, block_ok.
  rewrite Hw, bind_eval_inr, H1, bind_eval_inr, H2, bind_eval_inr,
    H3, bind_eval_inr.
  unfold bind at 1. rewrite conv2d_same by reflexivity.
  destruct (conv_ok (n1 + n2 + n3) (1, 1) (K.tshape x)); [|reflexivity].
  rewrite bind_eval_inr.
  unfold bind at 1. rewrite conv2d_same by reflexivity.
  destruct (conv_ok n1 (3, 3) (K.tshape x)); [|reflexivity].
  rewrite bind_eval_inr.
  unfold bind at 1. rewrite conv2d_same by reflexivity.
  cbn [K.tshape rows cols fst snd].
  rewrite (conv_ok_spatial n2 (3, 3) (K.tshape x) n1).
  destruct (conv_ok n2 (3, 3) (K.tshape x)); [|reflexivity].
  rewrite bind_eval_inr.
  unfold bind at 1. rewrite conv2d_same by reflexivity.
  cbn [K.tshape rows cols fst snd].
  rewrite (conv_ok_spatial n3 (3, 3) (K.tshape x) n2).
  destruct (conv_ok n3 (3, 3) (K.tshape x)); [|reflexivity].
  unfold bind, ret.
  rewrite Concatenate3_call by reflexivity.
  rewrite BatchNormalization_call.
  rewrite add_same_call by reflexivity.
  rewrite Activation_call by reflexivity.
  rewrite BatchNormalization_call.
  normalize_record. reflexivity.
Qed.

Lemma block_filters_inr u_val alpha n1 n2 n3 :
  block_filters u_val alpha = inr (n1, n2, n3) ->
  exists weight,
    Py.mul_int u_val alpha = inr weight
    /\ Py.int (weight * 0.167)%float = inr n1
    /\ Py.int (weight * 0.333)%float = inr n2
    /\ Py.int (weight * 0.5)%float = inr n3.
Proof.
  unfold block_filters.
  destruct (Py.mul_int u_val alpha) as [e|weight]; [discriminate|].
  destruct (Py.int (weight * 0.167)%float) as [e|m1] eqn:E1; [discriminate|].
  destruct (Py.int (weight * 0.333)%float) as [e|m2] eqn:E2; [discriminate|].
  destruct (Py.int (weight * 0.5)%float) as [e|m3] eqn:E3; [discriminate|].
  intros H. injection H as -> -> ->. exists weight.
  repeat split; assumption.
Qed.

Lemma block_filters_inl u_val alpha e x g :
  block_filters u_val alpha = inl e ->
  MultiResBlock u_val x alpha g = Err (OwnError e).
Proof.
  unfold block_filters, MultiResBlock.
  destruct (Py.mul_int u_val alpha) as [e'|weight].
  { intros H. injection H as ->. reflexivity. }
  rewrite bind_eval_inr.
  destruct (Py.int (weight * 0.167)%float) as [e'|m1].
  { intros H. injection H as ->. reflexivity. }
  rewrite bind_eval_inr.
  destruct (Py.int (weight * 0.333)%float) as [e'|m2].
  { intros H. injection H as ->. reflexivity. }
  rewrite bind_eval_inr.
  destruct (Py.int (weight * 0.5)%float) as [e'|m3].
  { intros H. injection H as ->. reflexivity. }
  discriminate.
Qed.

Lemma MultiResBlock_filtered u_val x alpha n1 n2 n3 g :
  block_filters u_val alpha = inr (n1, n2, n3) ->
  MultiResBlock u_val x alpha g =
  if block_ok n1 n2 n3 (K.tshape x)
  then Ok (K.mkTensor (15 + List.length g)
             (rows (K.tshape x), cols (K.tshape x), n1 + n2 + n3),
           g ++ MultiResBlock_nodes (List.length g) (K.tid x) (K.tshape x)
                  n1 n2 n3)
  else Err (FrameworkError InvalidArgument).
Proof.
  intros H. destruct (block_filters_inr _ _ _ _ _ H) as (w & Hw & H1 & H2 & H3).
  exact (MultiResBlock_run u_val x alpha w n1 n2 n3 g Hw H1 H2 H3).
Qed.

Lemma block_ok_true n1 n2 n3 s :
  0 <= n1 -> 0 <= n2 -> 0 <= n3 -> 0 <= rows s -> 0 <= cols s ->
  block_ok n1 n2 n3 s = true.
Proof.
  intros. unfold block_ok, conv_ok.
  change (K.positive_pair (1, 1)) with true.
  change (K.positive_pair (3, 3)) with true.
  rewrite !andb_true_r, !andb_true_iff, !Z.leb_le. lia.
Qed.

Lemma conv_ok_true filters s :
  0 <= filters -> 0 <= rows s -> 0 <= cols s ->
  conv_ok filters (1, 1) s = true.
Proof.
  intros. unfold conv_ok. change (K.positive_pair (1, 1)) with true.
  rewrite !andb_true_r, !andb_true_iff, !Z.leb_le. lia.
Qed.

(** ** Pooling and transposed convolution by two *)

Lemma twice_nonneg n : 0 <= n -> 0 <= twice n.
Proof. unfold twice. lia. Qed.

Lemma as_shape_nonneg h w c :
  0 <= h -> 0 <= w -> 0 <= c -> K.as_shape (h, w, c) = inr (h, w, c).
Proof.
  intros Hh Hw Hc. unfold K.as_shape, K.nonnegative.
  cbn [rows cols channels fst snd].
  rewrite (proj2 (Z.leb_le 0 h) Hh), (proj2 (Z.leb_le 0 w) Hw),
    (proj2 (Z.leb_le 0 c) Hc).
  reflexivity.
Qed.

Lemma MaxPooling2D_call x h w c g :
  K.tshape x = (twice h, twice w, c) ->
  0 < h -> 0 < w -> 0 <= c ->
  K.call (K.layers.MaxPooling2D (2, 2)) [x] g =
  Ok (K.mkTensor (List.length g) (h, w, c),
      g ++ [K.mkNode (K.layers.MaxPooling2D (2, 2)) [K.tid x] (h, w, c)]).
Proof.
  intros Hx Hh Hw Hc. apply call_Ok.
  cbn [map K.compute_output_shape]. rewrite Hx.
  change (K.positive_pair (2, 2)) with true.
  cbn [rows cols channels fst snd K.window_fits]. unfold twice.
  rewrite (proj2 (Z.leb_le 2 (2 * h))), (proj2 (Z.leb_le 2 (2 * w))) by lia.
  cbn [andb]. unfold K.conv_output_length.
  replace (2 * h - 2 + 1 + 2 - 1) with (h * 2) by lia.
  replace (2 * w - 2 + 1 + 2 - 1) with (w * 2) by lia.
  rewrite !Z.div_mul by lia.
  apply as_shape_nonneg; lia.
Qed.

Lemma Conv2DTranspose_call x filters g :
  0 <= filters -> 0 <= rows (K.tshape x) -> 0 <= cols (K.tshape x) ->
  K.call (K.layers.Conv2DTranspose filters (2, 2) (2, 2) same_padding) [x] g =
  Ok (K.mkTensor (List.length g)
        (twice (rows (K.tshape x)), twice (cols (K.tshape x)), filters),
      g ++ [K.mkNode
              (K.layers.Conv2DTranspose filters (2, 2) (2, 2) same_padding)
              [K.tid x]
              (twice (rows (K.tshape x)), twice (cols (K.tshape x)), filters)]).
Proof.
  intros Hf Hh Hw. apply call_Ok.
  cbn [map K.compute_output_shape].
  change (K.normalize_padding same_padding) with (Some K.same).
  change (K.positive_pair (2, 2)) with true.
  cbn [fst snd andb]. unfold K.deconv_output_length.
  rewrite !(Z.mul_comm _ 2). fold (twice (rows (K.tshape x))).
  fold (twice (cols (K.tshape x))).
  rewrite (proj2 (Z.leb_le 0 filters) Hf).
  apply as_shape_nonneg; auto using twice_nonneg.
Qed.

Lemma Input_call s g :
  0 <= rows s -> 0 <= cols s -> 0 <= channels s ->
  K.call (K.layers.Input s) [] g =
  Ok (K.mkTensor (List.length g) s, g ++ [K.mkNode (K.layers.Input s) [] s]).
Proof.
  intros Hh Hw Hc. apply call_Ok. cbn [map K.compute_output_shape].
  destruct s as [[h w] c]. apply as_shape_nonneg; assumption.
Qed.

(** ** A record behind an older one *)

Lemma existsb_shift k i wanted :
  existsb (Nat.eqb (i + k)) (map (fun j => (j + k)%nat) wanted) =
  existsb (Nat.eqb i) wanted.
Proof.
  induction wanted as [|j wanted IH]; [reflexivity|].
  cbn [map existsb]. rewrite IH. f_equal.
  destruct (Nat.eqb_spec i j), (Nat.eqb_spec (i + k) (j + k)); try reflexivity; lia.
Qed.

Lemma ancestors_older older wanted :
  (forall i, In i wanted -> (List.length older <= i)%nat) ->
  K.ancestors older wanted = [].
Proof.
  revert wanted. induction older as [|n older IH]; intros wanted H; [reflexivity|].
  cbn [K.ancestors].
  destruct (existsb (Nat.eqb (List.length older)) wanted) eqn:E.
  - apply existsb_exists in E. destruct E as (i & Hi & Heq).
    apply Nat.eqb_eq in Heq. subst i. apply H in Hi. cbn [List.length] in Hi. lia.
  - apply IH. intros i Hi. apply H in Hi. cbn [List.length] in Hi. lia.
Qed.

Lemma ancestors_shift older newer wanted :
  K.ancestors (map (shift_node (List.length older)) newer ++ older)
    (map (fun j => (j + List.length older)%nat) wanted) =
  map (shift_entry (List.length older)) (K.ancestors newer wanted).
Proof.
  revert wanted. induction newer as [|n newer IH]; intros wanted.
  - cbn [map app K.ancestors]. apply ancestors_older.
    intros i Hi. apply in_map_iff in Hi. destruct Hi as (j & <- & _). lia.
  - cbn [map app K.ancestors].
    rewrite length_app, length_map, existsb_shift.
    destruct (existsb (Nat.eqb (List.length newer)) wanted).
    + cbn [map]. unfold shift_entry at 1. cbn [fst snd]. f_equal.
      rewrite <- IH. f_equal. cbn [shift_node K.inbound].
      rewrite map_app. reflexivity.
    + apply IH.
Qed.

Lemma ancestors_shifted g newer wanted :
  K.ancestors (rev (g ++ map (shift_node (List.length g)) newer))
    (map (fun j => (j + List.length g)%nat) wanted) =
  map (shift_entry (List.length g)) (K.ancestors (rev newer) wanted).
Proof.
  rewrite rev_app_distr, <- map_rev.
  pose proof (ancestors_shift (rev g) (rev newer) wanted) as H.
  rewrite length_rev in H. exact H.
Qed.

Lemma connected_shift k ins ls :
  K.connected (map (shift_tensor k) ins) (map (shift_entry k) ls) =
  K.connected ins ls.
Proof.
  unfold K.connected. induction ls as [|[i n] ls IH]; [reflexivity|].
  cbn [map forallb]. rewrite IH. f_equal.
  unfold shift_entry. cbn [fst snd]. rewrite !map_map.
  change (map (fun t => K.tid (shift_tensor k t)) ins)
    with (map (fun t => (K.tid t + k)%nat) ins).
  rewrite <- (map_map K.tid (fun j => (j + k)%nat)), existsb_shift.
  reflexivity.
Qed.

Lemma Model_shift g newer ins outs :
  K.Model (map (shift_tensor (List.length g)) ins)
    (map (shift_tensor (List.length g)) outs)
    (g ++ map (shift_node (List.length g)) newer) =
  match K.Model ins outs newer with
  | Ok (m, _) =>
      Ok (shift_model (List.length g) m,
          g ++ map (shift_node (List.length g)) newer)
  | Err e => Err e
  end.
Proof.
  unfold K.Model. rewrite !map_map.
  change (map (fun t => K.tid (shift_tensor (List.length g) t)) outs)
    with (map (fun t => (K.tid t + List.length g)%nat) outs).
  rewrite <- (map_map K.tid (fun j => (j + List.length g)%nat)).
  rewrite ancestors_shifted, connected_shift.
  destruct (K.connected ins (K.ancestors (rev newer) (map K.tid outs)));
    reflexivity.
Qed.

(** ** Running [MultiResUnet] on a well-sized input *)

Lemma indexed_shift k l : forall i,
  map (shift_entry k) (indexed i l) = indexed (i + k) (map (shift_node k) l).
Proof.
  induction l as [|n l IH]; intros i; [reflexivity|].
  cbn [indexed map]. rewrite IH. reflexivity.
Qed.

Lemma unet_nodes_shift k a b c :
  unet_nodes k a b c = map (shift_node k) (unet_nodes 0 a b c).
Proof.
  cbv [unet_nodes MultiResBlock_nodes residual_units residual_unit
       conv2d_nodes pool_node up_node concat_node map app shift_node
       K.nlayer K.inbound K.output_shape Nat.add].
  reflexivity.
Qed.

Lemma unet_layers a b c :
  K.ancestors (rev (unet_nodes 0 a b c)) [239%nat] =
  rev (indexed 0 (unet_nodes 0 a b c)).
Proof.
  cbv [unet_nodes MultiResBlock_nodes residual_units residual_unit
       conv2d_nodes pool_node up_node concat_node map app rev indexed
       K.ancestors K.nlayer K.inbound K.output_shape Nat.add Nat.eqb existsb
       List.length orb].
  reflexivity.
Qed.

Lemma unet_connected a b c :
  K.connected [unet_input 0 a b c] (rev (indexed 0 (unet_nodes 0 a b c))) = true.
Proof.
  cbv [unet_nodes MultiResBlock_nodes residual_units residual_unit
       conv2d_nodes pool_node up_node concat_node map app rev indexed
       K.connected K.is_input K.nlayer K.inbound K.output_shape K.tid
       unet_input Nat.add Nat.eqb existsb forallb fst snd negb orb andb].
  reflexivity.
Qed.

Lemma unet_Model a b c g :
  K.Model [unet_input (List.length g) a b c] [unet_output (List.length g) a b]
    (g ++ unet_nodes (List.length g) a b c) =
  Ok (unet_model (List.length g) a b c, g ++ unet_nodes (List.length g) a b c).
Proof.
  rewrite unet_nodes_shift.
  pose proof (Model_shift g (unet_nodes 0 a b c)
                [unet_input 0 a b c] [unet_output 0 a b]) as H.
  cbn [map] in H.
  change (shift_tensor (List.length g) (unet_input 0 a b c))
    with (unet_input (List.length g) a b c) in H.
  change (shift_tensor (List.length g) (unet_output 0 a b))
    with (unet_output (List.length g) a b) in H.
  rewrite H. unfold K.Model.
  change (map K.tid [unet_output 0 a b]) with [239%nat].
  rewrite unet_layers, unet_connected.
  unfold shift_model, unet_model. cbn [K.inputs K.outputs K.model_layers map].
  rewrite <- unet_nodes_shift, map_rev, indexed_shift, <- unet_nodes_shift.
  reflexivity.
Qed.

(** The steps of a run, for a record of known length. *)
Lemma Input_step s g k :
  List.length g = k ->
  0 <= rows s -> 0 <= cols s -> 0 <= channels s ->
  K.call (K.layers.Input s) [] g =
  Ok (K.mkTensor k s, g ++ [K.mkNode (K.layers.Input s) [] s]).
Proof. intros <-. apply Input_call. Qed.

Lemma MultiResBlock_step u_val n1 n2 n3 x g k :
  List.length g = k ->
  block_filters u_val default_alpha = inr (n1, n2, n3) ->
  0 <= n1 -> 0 <= n2 -> 0 <= n3 ->
  0 <= rows (K.tshape x) -> 0 <= cols (K.tshape x) ->
  MultiResBlock u_val x default_alpha g =
  Ok (K.mkTensor (15 + k) (rows (K.tshape x), cols (K.tshape x), n1 + n2 + n3),
      g ++ MultiResBlock_nodes k (K.tid x) (K.tshape x) n1 n2 n3).
Proof.
  intros <- Hf H1 H2 H3 Hh Hw.
  rewrite (MultiResBlock_filtered _ _ _ _ _ _ _ Hf), block_ok_true by assumption.
  reflexivity.
Qed.

Lemma ResPath_step filters x length units g k :
  List.length g = k ->
  match length with
  | None => 1%nat
  | Some n => (1 + Py.range (n - 1))%nat
  end = units ->
  0 <= filters -> 0 <= rows (K.tshape x) -> 0 <= cols (K.tshape x) ->
  ResPath filters x length g =
  Ok (K.mkTensor (8 * units - 1 + k)
        (rows (K.tshape x), cols (K.tshape x), filters),
      g ++ residual_units units k (K.tid x) (K.tshape x) filters).
Proof.
  intros <- <- Hf Hh Hw. rewrite ResPath_run. cbv zeta.
  rewrite conv_ok_true by assumption. reflexivity.
Qed.

Lemma MaxPooling2D_step x h w c g k :
  List.length g = k ->
  K.tshape x = (twice h, twice w, c) ->
  0 < h -> 0 < w -> 0 <= c ->
  K.call (K.layers.MaxPooling2D (2, 2)) [x] g =
  Ok (K.mkTensor k (h, w, c), g ++ [pool_node (K.tid x) (h, w, c)]).
Proof. intros <-. apply MaxPooling2D_call. Qed.

Lemma Conv2DTranspose_step x filters g k :
  List.length g = k ->
  0 <= filters -> 0 <= rows (K.tshape x) -> 0 <= cols (K.tshape x) ->
  K.call (K.layers.Conv2DTranspose filters (2, 2) (2, 2) same_padding) [x] g =
  Ok (K.mkTensor k
        (twice (rows (K.tshape x)), twice (cols (K.tshape x)), filters),
      g ++ [up_node (K.tid x) filters
              (twice (rows (K.tshape x)), twice (cols (K.tshape x)), filters)]).
Proof. intros <-. apply Conv2DTranspose_call. Qed.

Lemma Concatenate_step x y g k :
  List.length g = k ->
  rows (K.tshape y) = rows (K.tshape x) ->
  cols (K.tshape y) = cols (K.tshape x) ->
  K.call K.layers.Concatenate [x; y] g =
  Ok (K.mkTensor k
        (rows (K.tshape x), cols (K.tshape x),
         channels (K.tshape x) + channels (K.tshape y)),
      g ++ [concat_node (K.tid x) (K.tid y)
              (rows (K.tshape x), cols (K.tshape x),
               channels (K.tshape x) + channels (K.tshape y))]).
Proof. intros <-. apply Concatenate2_call. Qed.

Lemma conv2d_step x filters activation g k :
  List.length g = k ->
  activation_ok activation = true ->
  0 <= filters -> 0 <= rows (K.tshape x) -> 0 <= cols (K.tshape x) ->
  conv2d x filters (1, 1) same_padding (1, 1) activation g =
  Ok (K.mkTensor (conv2d_out k activation)
        (rows (K.tshape x), cols (K.tshape x), filters),
      g ++ conv2d_nodes k (K.tid x) (K.tshape x) filters (1, 1) activation).
Proof.
  intros <- Ha Hf Hh Hw. rewrite conv2d_same, conv_ok_true by assumption.
  reflexivity.
Qed.

Lemma residual_units_length n : forall k i s filters,
  List.length (residual_units n k i s filters) = (8 * n)%nat.
Proof.
  induction n as [|n IH]; intros k i s filters; [reflexivity|].
  cbn [residual_units]. rewrite length_app, IH, residual_unit_length. lia.
Qed.

Lemma MultiResBlock_nodes_length k i s n1 n2 n3 :
  List.length (MultiResBlock_nodes k i s n1 n2 n3) = 16%nat.
Proof. reflexivity. Qed.

Lemma conv2d_nodes_length k i s filters kernel a :
  List.length (conv2d_nodes k i s filters kernel (Some a)) = 3%nat.
Proof. reflexivity. Qed.

(** Solves the side conditions of a step: known lengths, evaluated filter
    counts, non-negative sizes, equal sizes. *)
Ltac side_condition :=
  cbn [K.tshape K.tid rows cols channels fst snd];
  solve [ eassumption | reflexivity | lia | unfold twice; lia ].

(** Runs the first statement of a chain with [step], names the record it
    leaves and notes its length. *)
Tactic Notation "run_step" uconstr(step) :=
  erewrite bind_Ok by (eapply step; side_condition);
  cbv beta;
  cbn [K.tshape K.tid rows cols channels fst snd Z.add Pos.add Pos.succ
       Pos.add_carry];
  lazymatch goal with
  | Hlen : List.length ?g0 = _ |- _ _ (?g0 ++ ?l) = _ =>
      let g' := fresh "g" in
      let Hg := fresh "Hg" in
      let Hl := fresh "Hlen" in
      remember (g0 ++ l) as g' eqn:Hg;
      assert (Hl : List.length g' = (List.length l + List.length g0)%nat)
        by (rewrite Hg; apply length_snoc);
      rewrite Hlen in Hl;
      rewrite ?MultiResBlock_nodes_length, ?residual_units_length,
        ?conv2d_nodes_length in Hl;
      cbn [List.length Nat.add Nat.mul Nat.sub conv2d_out] in Hl |- *;
      clear Hlen
  end.

Lemma MultiResUnet_run a b c g :
  0 < a -> 0 < b -> 0 <= c ->
  MultiResUnet
    (twice (twice (twice (twice a))), twice (twice (twice (twice b))), c) g =
  Ok (unet_model (List.length g) a b c, g ++ unet_nodes (List.length g) a b c).
Proof.
  intros Ha Hb Hc.
  rewrite <- unet_Model.
  remember (List.length g) as k eqn:Hlen. symmetry in Hlen.
  unfold MultiResUnet.
  run_step Input_step.
  run_step (MultiResBlock_step 32 8 17 26).
  run_step MaxPooling2D_step.
  run_step (ResPath_step 32 _ _ 4%nat).
  run_step (MultiResBlock_step 64 17 35 53).
  run_step MaxPooling2D_step.
  run_step (ResPath_step 64 _ _ 3%nat).
  run_step (MultiResBlock_step 128 35 71 106).
  run_step MaxPooling2D_step.
  run_step (ResPath_step 128 _ _ 2%nat).
  run_step (MultiResBlock_step 256 71 142 213).
  run_step MaxPooling2D_step.
  run_step (ResPath_step 256 _ _ 1%nat).
  run_step (MultiResBlock_step 512 142 284 427).
  run_step Conv2DTranspose_step.
  run_step Concatenate_step.
  run_step (MultiResBlock_step 256 71 142 213).
  run_step Conv2DTranspose_step.
  run_step Concatenate_step.
  run_step (MultiResBlock_step 128 35 71 106).
  run_step Conv2DTranspose_step.
  run_step Concatenate_step.
  run_step (MultiResBlock_step 64 17 35 53).
  run_step Conv2DTranspose_step.
  run_step Concatenate_step.
  run_step (MultiResBlock_step 32 8 17 26).
  run_step conv2d_step.
  rewrite bind_ret. subst.
  rewrite <- !app_assoc.
  unfold unet_nodes, unet_input, unet_output.
  cbn [Nat.add app]. reflexivity.
Qed.

(** ** Running [MultiResUnet] on an input that does not halve four times *)

Lemma MaxPooling2D_floor_step x h w c h' w' g k :
  List.length g = k ->
  K.tshape x = (h, w, c) ->
  h' = h / 2 -> w' = w / 2 ->
  2 <= h -> 2 <= w -> 0 <= c ->
  K.call (K.layers.MaxPooling2D (2, 2)) [x] g =
  Ok (K.mkTensor k (h', w', c), g ++ [pool_node (K.tid x) (h', w', c)]).
Proof.
  intros <- Hx -> -> Hh Hw Hc. apply call_Ok.
  cbn [map K.compute_output_shape]. rewrite Hx.
  change (K.positive_pair (2, 2)) with true.
  cbn [rows cols channels fst snd K.window_fits].
  rewrite (proj2 (Z.leb_le 2 h)), (proj2 (Z.leb_le 2 w)) by lia.
  cbn [andb]. unfold K.conv_output_length.
  replace (h - 2 + 1 + 2 - 1) with h by lia.
  replace (w - 2 + 1 + 2 - 1) with w by lia.
  apply as_shape_nonneg; try assumption; apply Z.div_pos; lia.
Qed.

(** A pooling window that does not fit its input is refused. *)
Lemma MaxPooling2D_refused x g :
  rows (K.tshape x) < 2 \/ cols (K.tshape x) < 2 ->
  K.call (K.layers.MaxPooling2D (2, 2)) [x] g =
  Err (FrameworkError InvalidArgument).
Proof.
  intros H. apply call_Err.
  cbn [map K.compute_output_shape].
  change (K.positive_pair (2, 2)) with true.
  cbn [fst snd K.window_fits].
  destruct (Z.leb_spec 2 (rows (K.tshape x))) as [Hr|Hr]; [|reflexivity].
  destruct (Z.leb_spec 2 (cols (K.tshape x))) as [Hc|Hc]; [|reflexivity].
  lia.
Qed.

Lemma Concatenate_mismatch x y g :
  rows (K.tshape y) <> rows (K.tshape x)
  \/ cols (K.tshape y) <> cols (K.tshape x) ->
  K.call K.layers.Concatenate [x; y] g = Err (FrameworkError ShapeMismatch).
Proof.
  intros H. apply call_Err.
  cbn [map K.compute_output_shape K.concat_all].
  destruct (Z.eqb_spec (rows (K.tshape x)) (rows (K.tshape y))) as [Hr|Hr];
    [|reflexivity].
  destruct (Z.eqb_spec (cols (K.tshape x)) (cols (K.tshape y))) as [Hc|Hc];
    [|reflexivity].
  destruct H as [H|H]; congruence.
Qed.

(** Either the two tensors agree on the spatial axes and the run goes on,
    or the concatenation stops it. *)
Ltac concatenate_or_stop h w :=
  lazymatch goal with
  | |- bind (K.call K.layers.Concatenate [?x; ?y]) _ _ = _ =>
      destruct (Z.eq_dec (rows (K.tshape y)) (rows (K.tshape x))) as [h|h];
      [ destruct (Z.eq_dec (cols (K.tshape y)) (cols (K.tshape x))) as [w|w];
        [ cbn [K.tshape rows cols fst snd] in h, w
        | erewrite bind_Err by (apply Concatenate_mismatch; right; exact w);
          reflexivity ]
      | erewrite bind_Err by (apply Concatenate_mismatch; left; exact h);
        reflexivity ]
  end.

Lemma MultiResUnet_mismatch h w c g :
  16 <= h -> 16 <= w -> 0 <= c ->
  ~ ((16 | h) /\ (16 | w)) ->
  MultiResUnet (h, w, c) g = Err (FrameworkError ShapeMismatch).
Proof.
  intros Hh Hw Hc Hdiv.
  assert (Hh1 : 8 <= h / 2) by (apply Z.div_le_lower_bound; lia).
  assert (Hw1 : 8 <= w / 2) by (apply Z.div_le_lower_bound; lia).
  remember (h / 2) as h1 eqn:Eh1. remember (w / 2) as w1 eqn:Ew1.
  assert (Hh2 : 4 <= h1 / 2) by (apply Z.div_le_lower_bound; lia).
  assert (Hw2 : 4 <= w1 / 2) by (apply Z.div_le_lower_bound; lia).
  remember (h1 / 2) as h2 eqn:Eh2. remember (w1 / 2) as w2 eqn:Ew2.
  assert (Hh3 : 2 <= h2 / 2) by (apply Z.div_le_lower_bound; lia).
  assert (Hw3 : 2 <= w2 / 2) by (apply Z.div_le_lower_bound; lia).
  remember (h2 / 2) as h3 eqn:Eh3. remember (w2 / 2) as w3 eqn:Ew3.
  assert (Hh4 : 1 <= h3 / 2) by (apply Z.div_le_lower_bound; lia).
  assert (Hw4 : 1 <= w3 / 2) by (apply Z.div_le_lower_bound; lia).
  remember (h3 / 2) as h4 eqn:Eh4. remember (w3 / 2) as w4 eqn:Ew4.
  remember (List.length g) as k eqn:Hlen. symmetry in Hlen.
  unfold MultiResUnet.
  run_step Input_step.
  run_step (MultiResBlock_step 32 8 17 26).
  run_step MaxPooling2D_floor_step.
  run_step (ResPath_step 32 _ _ 4%nat).
  run_step (MultiResBlock_step 64 17 35 53).
  run_step MaxPooling2D_floor_step.
  run_step (ResPath_step 64 _ _ 3%nat).
  run_step (MultiResBlock_step 128 35 71 106).
  run_step MaxPooling2D_floor_step.
  run_step (ResPath_step 128 _ _ 2%nat).
  run_step (MultiResBlock_step 256 71 142 213).
  run_step MaxPooling2D_floor_step.
  run_step (ResPath_step 256 _ _ 1%nat).
  run_step (MultiResBlock_step 512 142 284 427).
  run_step Conv2DTranspose_step.
  concatenate_or_stop E3 F3.
  run_step Concatenate_step.
  run_step (MultiResBlock_step 256 71 142 213).
  run_step Conv2DTranspose_step.
  concatenate_or_stop E2 F2.
  run_step Concatenate_step.
  run_step (MultiResBlock_step 128 35 71 106).
  run_step Conv2DTranspose_step.
  concatenate_or_stop E1 F1.
  run_step Concatenate_step.
  run_step (MultiResBlock_step 64 17 35 53).
  run_step Conv2DTranspose_step.
  concatenate_or_stop E0 F0.
  exfalso. apply Hdiv. unfold twice in E0, F0.
  split; [exists h4|exists w4]; lia.
Qed.

(** ** Running [MultiResUnet] on an input too small to pool four times *)

(** Either the window fits and the pooling halves the tensor, or the
    pooling stops the run. *)
Ltac pool_or_stop h w :=
  lazymatch goal with
  | |- bind (K.call (K.layers.MaxPooling2D (2, 2)) [?x]) _ _ = _ =>
      destruct (Z_lt_dec (rows (K.tshape x)) 2) as [h|h];
      [ erewrite bind_Err by (apply MaxPooling2D_refused; left; exact h);
        reflexivity
      | destruct (Z_lt_dec (cols (K.tshape x)) 2) as [w|w];
        [ erewrite bind_Err by (apply MaxPooling2D_refused; right; exact w);
          reflexivity
        | cbn [K.tshape rows cols fst snd] in h, w ] ]
  end.

Lemma MultiResUnet_small h w c g :
  0 <= h -> 0 <= w -> 0 <= c ->
  h < 16 \/ w < 16 ->
  MultiResUnet (h, w, c) g = Err (FrameworkError InvalidArgument).
Proof.
  intros Hh Hw Hc Hsmall.
  assert (Hh1 : 0 <= h / 2 /\ 2 * (h / 2) <= h)
    by (split; [apply Z.div_pos|apply Z.mul_div_le]; lia).
  assert (Hw1 : 0 <= w / 2 /\ 2 * (w / 2) <= w)
    by (split; [apply Z.div_pos|apply Z.mul_div_le]; lia).
  remember (h / 2) as h1 eqn:Eh1. remember (w / 2) as w1 eqn:Ew1.
  assert (Hh2 : 0 <= h1 / 2 /\ 2 * (h1 / 2) <= h1)
    by (split; [apply Z.div_pos|apply Z.mul_div_le]; lia).
  assert (Hw2 : 0 <= w1 / 2 /\ 2 * (w1 / 2) <= w1)
    by (split; [apply Z.div_pos|apply Z.mul_div_le]; lia).
  remember (h1 / 2) as h2 eqn:Eh2. remember (w1 / 2) as w2 eqn:Ew2.
  assert (Hh3 : 0 <= h2 / 2 /\ 2 * (h2 / 2) <= h2)
    by (split; [apply Z.div_pos|apply Z.mul_div_le]; lia).
  assert (Hw3 : 0 <= w2 / 2 /\ 2 * (w2 / 2) <= w2)
    by (split; [apply Z.div_pos|apply Z.mul_div_le]; lia).
  remember (h2 / 2) as h3 eqn:Eh3. remember (w2 / 2) as w3 eqn:Ew3.
  remember (List.length g) as k eqn:Hlen. symmetry in Hlen.
  unfold MultiResUnet.
  run_step Input_step.
  run_step (MultiResBlock_step 32 8 17 26).
  pool_or_stop P0 Q0.
  run_step MaxPooling2D_floor_step.
  run_step (ResPath_step 32 _ _ 4%nat).
  run_step (MultiResBlock_step 64 17 35 53).
  pool_or_stop P1 Q1.
  run_step MaxPooling2D_floor_step.
  run_step (ResPath_step 64 _ _ 3%nat).
  run_step (MultiResBlock_step 128 35 71 106).
  pool_or_stop P2 Q2.
  run_step MaxPooling2D_floor_step.
  run_step (ResPath_step 128 _ _ 2%nat).
  run_step (MultiResBlock_step 256 71 142 213).
  pool_or_stop P3 Q3.
  exfalso. lia.
Qed.

(** ** Every run of [MultiResUnet] *)

Lemma sixteen_times n : n mod 16 = 0 ->
  n = twice (twice (twice (twice (sixteenth n)))).
Proof.
  intros H. unfold twice, sixteenth.
  pose proof (Z.div_mod n 16). lia.
Qed.

Lemma MultiResUnet_negative s g :
  K.nonnegative s = false ->
  MultiResUnet s g = Err (FrameworkError InvalidArgument).
Proof.
  intros H. unfold MultiResUnet. apply bind_Err. apply call_Err.
  cbn [map K.compute_output_shape]. unfold K.as_shape. rewrite H. reflexivity.
Qed.

Lemma poolable_true h w c :
  poolable (h, w, c) = true <-> 16 <= h /\ 16 <= w /\ 0 <= c.
Proof.
  unfold poolable, K.nonnegative. cbn [rows cols channels fst snd].
  rewrite !andb_true_iff, !Z.leb_le. lia.
Qed.

Lemma MultiResUnet_cases h w c g :
  MultiResUnet (h, w, c) g =
  if poolable (h, w, c)
  then
    if andb (h mod 16 =? 0) (w mod 16 =? 0)
    then Ok (unet_model (List.length g) (sixteenth h) (sixteenth w) c,
             g ++ unet_nodes (List.length g) (sixteenth h) (sixteenth w) c)
    else Err (FrameworkError ShapeMismatch)
  else Err (FrameworkError InvalidArgument).
Proof.
  destruct (poolable (h, w, c)) eqn:Hp.
  - apply poolable_true in Hp. destruct Hp as (Hh & Hw & Hc).
    destruct (Z.eqb_spec (h mod 16) 0) as [Eh|Eh];
      [destruct (Z.eqb_spec (w mod 16) 0) as [Ew|Ew]|]; cbn [andb].
    + rewrite (sixteen_times h Eh) at 1. rewrite (sixteen_times w Ew) at 1.
      apply MultiResUnet_run; [| |assumption];
        unfold sixteenth; apply Z.div_str_pos; lia.
    + apply MultiResUnet_mismatch; try assumption.
      intros [_ Hd]. apply Ew. apply Z.mod_divide in Hd; [exact Hd|lia].
    + apply MultiResUnet_mismatch; try assumption.
      intros [Hd _]. apply Eh. apply Z.mod_divide in Hd; [exact Hd|lia].
  - destruct (K.nonnegative (h, w, c)) eqn:Hnn.
    + unfold poolable in Hp. rewrite Hnn in Hp. cbn [andb rows cols fst snd] in Hp.
      unfold K.nonnegative in Hnn. cbn [rows cols channels fst snd] in Hnn.
      rewrite !andb_true_iff, !Z.leb_le in Hnn. destruct Hnn as [[Hh Hw] Hc].
      apply andb_false_iff in Hp. rewrite !Z.leb_gt in Hp.
      apply MultiResUnet_small; assumption.
    + apply MultiResUnet_negative. exact Hnn.
Qed.

Lemma MultiResUnet_Ok_inv h w c g m g' :
  MultiResUnet (h, w, c) g = Ok (m, g') ->
  m = unet_model (List.length g) (sixteenth h) (sixteenth w) c
  /\ g' = g ++ unet_nodes (List.length g) (sixteenth h) (sixteenth w) c.
Proof.
  rewrite MultiResUnet_cases.
  destruct (poolable (h, w, c)); [|discriminate].
  destruct (andb (h mod 16 =? 0) (w mod 16 =? 0)); [|discriminate].
  intros H. injection H as <- <-. split; reflexivity.
Qed.

Lemma MultiResUnet_Ok_size h w c g m g' :
  MultiResUnet (h, w, c) g = Ok (m, g') ->
  h = twice (twice (twice (twice (sixteenth h))))
  /\ w = twice (twice (twice (twice (sixteenth w)))).
Proof.
  rewrite MultiResUnet_cases.
  destruct (poolable (h, w, c)); [|discriminate].
  destruct (Z.eqb_spec (h mod 16) 0) as [Eh|Eh]; [|discriminate].
  destruct (Z.eqb_spec (w mod 16) 0) as [Ew|Ew]; [|discriminate].
  intros _. split; apply sixteen_times; assumption.
Qed.

Lemma unet_nodes_length k a b c : List.length (unet_nodes k a b c) = 240%nat.
Proof. reflexivity. Qed.

Lemma indexed_length l : forall k, List.length (indexed k l) = List.length l.
Proof.
  induction l as [|n l IH]; intros k; [reflexivity|].
  cbn [indexed List.length]. rewrite IH. reflexivity.
Qed.

Lemma unet_model_shift k a b c :
  unet_model k a b c = shift_model k (unet_model 0 a b c).
Proof.
  unfold unet_model, shift_model. cbn [K.inputs K.outputs K.model_layers map].
  rewrite map_rev, indexed_shift, <- unet_nodes_shift. reflexivity.
Qed.

(** ** Shape compatibility in the graph of [MultiResUnet] *)

Lemma find_shift k i ls :
  find (fun e => Nat.eqb (fst e) (i + k)) (map (shift_entry k) ls) =
  option_map (shift_entry k) (find (fun e => Nat.eqb (fst e) i) ls).
Proof.
  induction ls as [|[j n] ls IH]; [reflexivity|].
  cbn [map find shift_entry fst snd].
  destruct (Nat.eqb_spec j i), (Nat.eqb_spec (j + k) (i + k));
    try reflexivity; try lia.
  exact IH.
Qed.

Lemma producer_shift k i ls :
  producer (map (shift_entry k) ls) (i + k) =
  option_map (shift_node k) (producer ls i).
Proof.
  unfold producer. rewrite find_shift.
  destruct (find (fun e => Nat.eqb (fst e) i) ls) as [[j n]|]; reflexivity.
Qed.

Lemma input_shapes_shift k ls n :
  input_shapes (map (shift_entry k) ls) (shift_node k n) = input_shapes ls n.
Proof.
  unfold input_shapes. cbn [shift_node K.inbound]. rewrite map_map.
  apply map_ext. intros i. rewrite producer_shift.
  destruct (producer ls i); reflexivity.
Qed.

Lemma compatible_shift k ls n :
  compatible ls n -> compatible (map (shift_entry k) ls) (shift_node k n).
Proof.
  unfold compatible. rewrite input_shapes_shift.
  cbn [shift_node K.nlayer K.output_shape K.inbound].
  rewrite length_map. exact (fun H => H).
Qed.

Lemma Forall_compatible_shift k ls :
  Forall (fun e => compatible ls (snd e)) ls ->
  Forall (fun e => compatible (map (shift_entry k) ls) (snd e))
    (map (shift_entry k) ls).
Proof.
  intros H. apply Forall_map. revert H. apply Forall_impl.
  intros [j n] Hc. cbn [shift_entry snd]. apply compatible_shift. exact Hc.
Qed.

Lemma count_layers_shift p k ls :
  (forall n, p (shift_node k n) = p n) ->
  count_layers p (map (shift_entry k) ls) = count_layers p ls.
Proof.
  intros Hp. unfold count_layers.
  induction ls as [|[j n] ls IH]; [reflexivity|].
  cbn [map filter shift_entry snd]. rewrite Hp.
  destruct (p n); cbn [List.length]; rewrite IH; reflexivity.
Qed.

Lemma unet_compatible a b c :
  Forall (fun e => compatible (K.model_layers (unet_model 0 a b c)) (snd e))
    (K.model_layers (unet_model 0 a b c)).
Proof.
  repeat (apply Forall_cons;
          [ vm_compute; try exact I;
            try (eexists; repeat split; reflexivity);
            (split; [lia | repeat constructor; eexists; repeat split; reflexivity])
          | ]).
  apply Forall_nil.
Qed.

Lemma unet_counts a b c :
  count_layers is_pooling (K.model_layers (unet_model 0 a b c)) = 4%nat
  /\ count_layers is_transposed (K.model_layers (unet_model 0 a b c)) = 4%nat.
Proof. split; reflexivity. Qed.

(** ** The claims about [MultiResUnet] on well-sized inputs *)

(** C1.  For every input size [(h, w, c)], the height, width and channels
    of an image, whose [h] and [w] are divisible by 16, [MultiResUnet]
    returns a model whose single output has shape [(h, w, 1)], whatever the
    framework recorded before; the model owns 240 layer calls, the ones the
    run adds to the record, for every such size. *)
Theorem MultiResUnet_output_shape h w c g :
  0 < h -> 0 < w -> 0 < c -> (16 | h) -> (16 | w) ->
  exists m g',
    MultiResUnet (h, w, c) g = Ok (m, g')
    /\ map K.tshape (K.outputs m) = [(h, w, 1)]
    /\ List.length (K.model_layers m) = 240%nat
    /\ List.length g' = (List.length g + 240)%nat.
Proof.
  intros Hh Hw Hc Dh Dw.
  assert (Hp : poolable (h, w, c) = true).
  { apply poolable_true. destruct Dh as [i Hi], Dw as [j Hj]. lia. }
  apply Z.mod_divide in Dh; [|lia]. apply Z.mod_divide in Dw; [|lia].
  exists (unet_model (List.length g) (sixteenth h) (sixteenth w) c),
    (g ++ unet_nodes (List.length g) (sixteenth h) (sixteenth w) c).
  split.
  - rewrite MultiResUnet_cases, Hp, Dh, Dw. reflexivity.
  - split; [|split].
    + cbn [unet_model K.outputs map unet_output K.tshape].
      rewrite <- (sixteen_times h Dh), <- (sixteen_times w Dw). reflexivity.
    + cbn [unet_model K.model_layers].
      rewrite length_rev, indexed_length. apply unet_nodes_length.
    + rewrite length_app, unet_nodes_length. reflexivity.
Qed.

Lemma MultiResUnet_output_shape_witness :
  exists m g',
    MultiResUnet (256, 256, 3) [] = Ok (m, g')
    /\ map K.tshape (K.outputs m) = [(256, 256, 1)]
    /\ List.length (K.model_layers m) = 240%nat
    /\ List.length g' = (0 + 240)%nat.
Proof.
  apply (MultiResUnet_output_shape 256 256 3 []);
    [lia | lia | lia | exists 16; reflexivity | exists 16; reflexivity].
Defined.

(** C7.  For every input size whose [h] and [w] are divisible by 16, a run of
    [MultiResUnet] never ends in a shape mismatch: it returns a model when
    [h] and [w] are positive and [c] is not negative, and otherwise the
    framework refuses an argument (the input layer a negative entry, the
    first pooling an empty image).  In the model it returns there are four
    poolings, each halving the spatial axes, four transposed convolutions,
    each doubling them, and every concatenation and every sum is given
    operands that agree on the spatial axes. *)
Theorem MultiResUnet_shape_compatible h w c g :
  (16 | h) -> (16 | w) ->
  MultiResUnet (h, w, c) g <> Err (FrameworkError ShapeMismatch)
  /\ (0 < h /\ 0 < w /\ 0 <= c ->
      exists m g', MultiResUnet (h, w, c) g = Ok (m, g'))
  /\ (h <= 0 \/ w <= 0 \/ c < 0 ->
      MultiResUnet (h, w, c) g = Err (FrameworkError InvalidArgument))
  /\ forall m g',
       MultiResUnet (h, w, c) g = Ok (m, g') ->
       Forall (fun e => compatible (K.model_layers m) (snd e))
         (K.model_layers m)
       /\ count_layers is_pooling (K.model_layers m) = 4%nat
       /\ count_layers is_transposed (K.model_layers m) = 4%nat.
Proof.
  intros Dh Dw.
  assert (Hcases := MultiResUnet_cases h w c g).
  assert (Hp : poolable (h, w, c) = true <-> 0 < h /\ 0 < w /\ 0 <= c).
  { rewrite poolable_true. destruct Dh as [i Hi], Dw as [j Hj]. lia. }
  apply Z.mod_divide in Dh; [|lia]. apply Z.mod_divide in Dw; [|lia].
  rewrite Dh, Dw in Hcases. cbn [Z.eqb andb] in Hcases.
  split; [|split; [|split]].
  - rewrite Hcases. destruct (poolable (h, w, c)); discriminate.
  - intros Hpos. apply Hp in Hpos. rewrite Hpos in Hcases.
    eexists. eexists. exact Hcases.
  - intros Hneg. destruct (poolable (h, w, c)); [|exact Hcases].
    destruct Hp as [Hp _]. specialize (Hp eq_refl). lia.
  - intros m g' Hrun. apply MultiResUnet_Ok_inv in Hrun. destruct Hrun as [-> _].
    rewrite unet_model_shift. cbn [shift_model K.model_layers].
    split; [|split].
    + apply Forall_compatible_shift. apply unet_compatible.
    + rewrite count_layers_shift by reflexivity. apply unet_counts.
    + rewrite count_layers_shift by reflexivity. apply unet_counts.
Qed.

Lemma MultiResUnet_shape_compatible_witness :
  MultiResUnet (32, 16, 3) [] <> Err (FrameworkError ShapeMismatch)
  /\ (0 < 32 /\ 0 < 16 /\ 0 <= 3 ->
      exists m g', MultiResUnet (32, 16, 3) [] = Ok (m, g'))
  /\ (32 <= 0 \/ 16 <= 0 \/ 3 < 0 ->
      MultiResUnet (32, 16, 3) [] = Err (FrameworkError InvalidArgument))
  /\ forall m g',
       MultiResUnet (32, 16, 3) [] = Ok (m, g') ->
       Forall (fun e => compatible (K.model_layers m) (snd e))
         (K.model_layers m)
       /\ count_layers is_pooling (K.model_layers m) = 4%nat
       /\ count_layers is_transposed (K.model_layers m) = 4%nat.
Proof.
  apply (MultiResUnet_shape_compatible 32 16 3 []);
    [exists 2; reflexivity | exists 1; reflexivity].
Defined.

(** C9.  What a run of [MultiResUnet] does is fixed by the input size alone.
    Two runs on the same size, started from any two records, either both
    stop with the same error or both return a model; and then the two
    models and the layer calls the two runs added are one and the same
    graph (same layers, arguments, connections and shapes), each laid
    behind the record its run started from. *)
Theorem MultiResUnet_deterministic (input_size : shape) (g1 g2 : K.graph) :
  match MultiResUnet input_size g1, MultiResUnet input_size g2 with
  | Ok (m1, g1'), Ok (m2, g2') =>
      exists m new,
        m1 = shift_model (List.length g1) m
        /\ g1' = g1 ++ map (shift_node (List.length g1)) new
        /\ m2 = shift_model (List.length g2) m
        /\ g2' = g2 ++ map (shift_node (List.length g2)) new
  | Err e1, Err e2 => e1 = e2
  | _, _ => False
  end.
Proof.
  destruct input_size as [[h w] c]. rewrite !MultiResUnet_cases.
  destruct (poolable (h, w, c)); [|reflexivity].
  destruct (andb (h mod 16 =? 0) (w mod 16 =? 0)); [|reflexivity].
  exists (unet_model 0 (sixteenth h) (sixteenth w) c),
    (unet_nodes 0 (sixteenth h) (sixteenth w) c).
  rewrite <- !unet_model_shift, <- !unet_nodes_shift.
  repeat split; reflexivity.
Qed.

(** ** The order and the operations of the graph *)

Lemma earlier_only_reads ls j i :
  earlier_only ls = true -> reads ls j i ->
  (i < j)%nat /\ exists n', In (i, n') ls.
Proof.
  intros Hcheck (n & Hn & Hi). unfold earlier_only in Hcheck.
  rewrite forallb_forall in Hcheck. specialize (Hcheck _ Hn).
  rewrite forallb_forall in Hcheck. specialize (Hcheck _ Hi).
  cbn [fst snd] in Hcheck. apply andb_true_iff in Hcheck.
  destruct Hcheck as [Hlt Hex]. apply Nat.ltb_lt in Hlt.
  apply existsb_exists in Hex. destruct Hex as ([i' n'] & Hin & Heq).
  cbn [fst] in Heq. apply Nat.eqb_eq in Heq. subst i'.
  split; [exact Hlt|]. exists n'. exact Hin.
Qed.

Lemma reads_shift k ls j i :
  reads (map (shift_entry k) ls) j i ->
  exists j0 i0, j = (j0 + k)%nat /\ i = (i0 + k)%nat /\ reads ls j0 i0.
Proof.
  intros (n & Hn & Hi). apply in_map_iff in Hn.
  destruct Hn as ([j0 n0] & Heq & Hn0). unfold shift_entry in Heq.
  cbn [fst snd] in Heq. injection Heq as <- <-.
  cbn [shift_node K.inbound] in Hi. apply in_map_iff in Hi.
  destruct Hi as (i0 & <- & Hi0).
  exists j0, i0. repeat split. exists n0. split; assumption.
Qed.

Lemma earlier_only_shift k ls j i :
  earlier_only ls = true -> reads (map (shift_entry k) ls) j i ->
  (i < j)%nat /\ exists n', In (i, n') (map (shift_entry k) ls).
Proof.
  intros Hcheck Hr. apply reads_shift in Hr.
  destruct Hr as (j0 & i0 & -> & -> & Hr).
  destruct (earlier_only_reads _ _ _ Hcheck Hr) as [Hlt [n' Hn']].
  split; [lia|]. exists (shift_node k n').
  apply in_map_iff. exists (i0, n'). split; [reflexivity|exact Hn'].
Qed.

Lemma no_cycle ls :
  (forall j i, reads ls j i -> (i < j)%nat) ->
  forall i, ~ Relation_Operators.clos_trans nat (reads ls) i i.
Proof.
  intros Hlt i Hc.
  assert (H : forall j i', Relation_Operators.clos_trans nat (reads ls) j i' ->
                           (i' < j)%nat).
  { intros j i' Hji. induction Hji as [j i' Hr|j m i' _ IH1 _ IH2].
    - apply Hlt. exact Hr.
    - lia. }
  apply H in Hc. lia.
Qed.

Lemma operations_of_shift k ls :
  operations_of (map (shift_entry k) ls) = operations_of ls.
Proof. unfold operations_of. rewrite map_map. reflexivity. Qed.

Lemma unet_earlier_only a b c :
  earlier_only (K.model_layers (unet_model 0 a b c)) = true.
Proof. vm_compute. reflexivity. Qed.

Lemma unet_operations a b c op :
  In op (operations_of (K.model_layers (unet_model 0 a b c))) <->
  In op used_operations.
Proof.
  split.
  - intros _. destruct op; cbn [used_operations In]; tauto.
  - intros _.
    destruct op;
      [ apply (nth_error_In _ 239) | apply (nth_error_In _ 2)
      | apply (nth_error_In _ 1) | apply (nth_error_In _ 0)
      | apply (nth_error_In _ 7) | apply (nth_error_In _ 5)
      | apply (nth_error_In _ 222) | apply (nth_error_In _ 20) ];
      vm_compute; reflexivity.
Qed.

(** C4, as the code has it.  In every model [MultiResUnet] returns, each
    layer call was applied only to outputs of the model's earlier calls,
    so no call depends on itself, however long the chain; and the
    operations of the graph are exactly the input placeholder,
    convolution, batch normalization, activation, concatenation,
    elementwise addition, pooling and transposed convolution. *)
Theorem MultiResUnet_acyclic input_size g m g' :
  MultiResUnet input_size g = Ok (m, g') ->
  (forall j i, reads (K.model_layers m) j i ->
     (i < j)%nat /\ exists n', In (i, n') (K.model_layers m))
  /\ (forall i,
        ~ Relation_Operators.clos_trans nat (reads (K.model_layers m)) i i)
  /\ (forall op,
        In op (operations_of (K.model_layers m)) <-> In op used_operations).
Proof.
  destruct input_size as [[h w] c]. intros Hrun.
  apply MultiResUnet_Ok_inv in Hrun. destruct Hrun as [-> _].
  rewrite unet_model_shift. cbn [shift_model K.model_layers].
  assert (Hearlier : forall j i,
    reads (map (shift_entry (List.length g))
             (K.model_layers (unet_model 0 (sixteenth h) (sixteenth w) c))) j i ->
    (i < j)%nat /\ exists n',
      In (i, n')
        (map (shift_entry (List.length g))
           (K.model_layers (unet_model 0 (sixteenth h) (sixteenth w) c)))).
  { intros j i. apply earlier_only_shift. apply unet_earlier_only. }
  split; [exact Hearlier|split].
  - apply no_cycle. intros j i Hr. apply (Hearlier j i Hr).
  - intros op. rewrite operations_of_shift. apply unet_operations.
Qed.

Lemma MultiResUnet_acyclic_witness :
  exists m g',
    MultiResUnet (16, 16, 1) [] = Ok (m, g')
    /\ (forall j i, reads (K.model_layers m) j i ->
          (i < j)%nat /\ exists n', In (i, n') (K.model_layers m))
    /\ (forall i,
          ~ Relation_Operators.clos_trans nat (reads (K.model_layers m)) i i)
    /\ (forall op,
          In op (operations_of (K.model_layers m)) <-> In op used_operations).
Proof.
  exists (unet_model 0 1 1 1), (unet_nodes 0 1 1 1).
  assert (Hrun : MultiResUnet (16, 16, 1) [] =
                 Ok (unet_model 0 1 1 1, unet_nodes 0 1 1 1))
    by (vm_compute; reflexivity).
  split; [exact Hrun|].
  exact (MultiResUnet_acyclic (16, 16, 1) [] _ _ Hrun).
Defined.

(** C4 as the spec states it fails: the model built for the size
    (16, 16, 1) contains an elementwise addition, which is none of the
    five operations the spec lists. *)
Lemma MultiResUnet_adds_tensors :
  exists m g' e,
    MultiResUnet (16, 16, 1) [] = Ok (m, g')
    /\ In e (K.model_layers m)
    /\ K.nlayer (snd e) = K.layers.add
    /\ ~ In (operation_of (K.nlayer (snd e))) listed_operations.
Proof.
  exists (unet_model 0 1 1 1), (unet_nodes 0 1 1 1),
    (14%nat, K.mkNode K.layers.add [2%nat; 13%nat] (16, 16, 51)).
  split; [vm_compute; reflexivity|].
  split; [apply (nth_error_In _ 225); vm_compute; reflexivity|].
  split; [reflexivity|].
  cbn [snd K.nlayer operation_of listed_operations In].
  intros [H|[H|[H|[H|[H|[]]]]]]; discriminate H.
Qed.

(** ** [MultiResUnet] is the U the spec describes *)

Lemma MultiResUnet_U_shaped input_size g :
  MultiResUnet input_size g = U_shaped_network input_size g.
Proof.
  unfold MultiResUnet, U_shaped_network, encoder_levels, default_length.
  cbn [encoder_decoder]. unfold bottleneck_u_val.
  unfold bind.
  repeat lazymatch goal with
  | |- match ?m ?g with _ => _ end = _ =>
      destruct (m g) as [[? ?]|?]; [|reflexivity]
  end.
  reflexivity.
Qed.

Lemma unet_ends a b c :
  producer (K.model_layers (unet_model 0 a b c)) 0 =
    Some (K.mkNode
            (K.layers.Input
               (twice (twice (twice (twice a))),
                twice (twice (twice (twice b))), c)) []
            (twice (twice (twice (twice a))),
             twice (twice (twice (twice b))), c))
  /\ count_layers K.is_input (K.model_layers (unet_model 0 a b c)) = 1%nat
  /\ producer (K.model_layers (unet_model 0 a b c)) 239 =
       Some (K.mkNode (K.layers.Activation "sigmoid") [238%nat]
               (twice (twice (twice (twice a))),
                twice (twice (twice (twice b))), 1))
  /\ producer (K.model_layers (unet_model 0 a b c)) 238 =
       Some (K.mkNode (K.layers.BatchNormalization false) [237%nat]
               (twice (twice (twice (twice a))),
                twice (twice (twice (twice b))), 1))
  /\ producer (K.model_layers (unet_model 0 a b c)) 237 =
       Some (K.mkNode
               (K.layers.Conv2D 1 (1, 1) (1, 1) (Some "same"%string) false)
               [236%nat]
               (twice (twice (twice (twice a))),
                twice (twice (twice (twice b))), 1)).
Proof. repeat split; vm_compute; reflexivity. Qed.

Lemma unet_model_ends k a b c :
  let s0 c' :=
    (twice (twice (twice (twice a))), twice (twice (twice (twice b))), c') in
  producer (K.model_layers (unet_model k a b c)) (0 + k) =
    Some (K.mkNode (K.layers.Input (s0 c)) [] (s0 c))
  /\ count_layers K.is_input (K.model_layers (unet_model k a b c)) = 1%nat
  /\ producer (K.model_layers (unet_model k a b c)) (239 + k) =
       Some (K.mkNode (K.layers.Activation "sigmoid") [(238 + k)%nat] (s0 1))
  /\ producer (K.model_layers (unet_model k a b c)) (238 + k) =
       Some (K.mkNode (K.layers.BatchNormalization false) [(237 + k)%nat]
               (s0 1))
  /\ producer (K.model_layers (unet_model k a b c)) (237 + k) =
       Some (K.mkNode
               (K.layers.Conv2D 1 (1, 1) (1, 1) (Some "same"%string) false)
               [(236 + k)%nat] (s0 1)).
Proof.
  cbv zeta. destruct (unet_ends a b c) as (Hin & Hcount & Hact & Hbn & Hconv).
  rewrite unet_model_shift.
  change (K.model_layers (shift_model k (unet_model 0 a b c)))
    with (map (shift_entry k) (K.model_layers (unet_model 0 a b c))).
  rewrite !producer_shift, Hin, Hact, Hbn, Hconv.
  rewrite count_layers_shift, Hcount by reflexivity.
  repeat split; reflexivity.
Qed.

(** C2.  [MultiResUnet] is the U-shaped network the spec describes: four
    encoder levels (a [MultiResBlock] with [u_val] 32, 64, 128, 256, a 2x2
    max-pooling, a [ResPath] of length 4, 3, 2 and the default on the skip
    connection), a bottleneck [MultiResBlock] with [u_val] 512, four decoder
    levels (a 2x2-stride transposed convolution, a concatenation with the
    [ResPath] output of the level, a [MultiResBlock] with [u_val] 256, 128,
    64, 32) and a final 1-filter sigmoid [conv2d]; the two agree on every
    input size and every record, errors included.  The model returned has
    one input, produced by the only input layer of the graph, and one
    output, produced by the activation of the final [conv2d], whose
    convolution has one 1x1 filter. *)
Theorem MultiResUnet_composition input_size g :
  MultiResUnet input_size g = U_shaped_network input_size g
  /\ forall m g',
       MultiResUnet input_size g = Ok (m, g') ->
       exists inputs conv_10 bn conv x s,
         K.inputs m = [inputs] /\ K.outputs m = [conv_10]
         /\ producer (K.model_layers m) (K.tid inputs) =
              Some (K.mkNode (K.layers.Input input_size) [] input_size)
         /\ count_layers K.is_input (K.model_layers m) = 1%nat
         /\ producer (K.model_layers m) (K.tid conv_10) =
              Some (K.mkNode (K.layers.Activation "sigmoid") [bn] s)
         /\ producer (K.model_layers m) bn =
              Some (K.mkNode (K.layers.BatchNormalization false) [conv] s)
         /\ producer (K.model_layers m) conv =
              Some (K.mkNode
                      (K.layers.Conv2D 1 (1, 1) (1, 1) (Some "same"%string) false)
                      [x] s).
Proof.
  split; [apply MultiResUnet_U_shaped|].
  destruct input_size as [[h w] c]. intros m g' Hrun.
  destruct (MultiResUnet_Ok_size _ _ _ _ _ _ Hrun) as [Eh Ew].
  apply MultiResUnet_Ok_inv in Hrun. destruct Hrun as [-> _].
  destruct (unet_model_ends (List.length g) (sixteenth h) (sixteenth w) c)
    as (Hin & Hcount & Hact & Hbn & Hconv).
  cbv zeta in Hin, Hact, Hbn, Hconv.
  rewrite <- Eh, <- Ew in Hin, Hact, Hbn, Hconv.
  exists (unet_input (List.length g) (sixteenth h) (sixteenth w) c),
    (unet_output (List.length g) (sixteenth h) (sixteenth w)),
    (238 + List.length g)%nat, (237 + List.length g)%nat,
    (236 + List.length g)%nat, (h, w, 1).
  repeat split; assumption || reflexivity.
Qed.

Lemma MultiResUnet_composition_witness :
  exists inputs conv_10 bn conv x s,
    K.inputs (unet_model 0 1 1 1) = [inputs]
    /\ K.outputs (unet_model 0 1 1 1) = [conv_10]
    /\ producer (K.model_layers (unet_model 0 1 1 1)) (K.tid inputs) =
         Some (K.mkNode (K.layers.Input (16, 16, 1)) [] (16, 16, 1))
    /\ count_layers K.is_input (K.model_layers (unet_model 0 1 1 1)) = 1%nat
    /\ producer (K.model_layers (unet_model 0 1 1 1)) (K.tid conv_10) =
         Some (K.mkNode (K.layers.Activation "sigmoid") [bn] s)
    /\ producer (K.model_layers (unet_model 0 1 1 1)) bn =
         Some (K.mkNode (K.layers.BatchNormalization false) [conv] s)
    /\ producer (K.model_layers (unet_model 0 1 1 1)) conv =
         Some (K.mkNode
                 (K.layers.Conv2D 1 (1, 1) (1, 1) (Some "same"%string) false)
                 [x] s).
Proof.
  apply (proj2 (MultiResUnet_composition (16, 16, 1) [])
           (unet_model 0 1 1 1) (unet_nodes 0 1 1 1)).
  vm_compute. reflexivity.
Defined.

(** ** The claims about [MultiResBlock] *)

Lemma MultiResBlock_Ok_inv u_val x alpha g t g' :
  MultiResBlock u_val x alpha g = Ok (t, g') ->
  exists weight n1 n2 n3,
    Py.mul_int u_val alpha = inr weight
    /\ Py.int (weight * 0.167)%float = inr n1
    /\ Py.int (weight * 0.333)%float = inr n2
    /\ Py.int (weight * 0.5)%float = inr n3
    /\ block_ok n1 n2 n3 (K.tshape x) = true
    /\ t = K.mkTensor (15 + List.length g)
             (rows (K.tshape x), cols (K.tshape x), n1 + n2 + n3)
    /\ g' = g ++ MultiResBlock_nodes (List.length g) (K.tid x) (K.tshape x)
                   n1 n2 n3.
Proof.
  intros Hrun.
  destruct (block_filters u_val alpha) as [e|[[n1 n2] n3]] eqn:Hf.
  - rewrite (block_filters_inl _ _ _ _ _ Hf) in Hrun. discriminate.
  - rewrite (MultiResBlock_filtered _ _ _ _ _ _ _ Hf) in Hrun.
    destruct (block_filters_inr _ _ _ _ _ Hf) as (weight & Hw & H1 & H2 & H3).
    destruct (block_ok n1 n2 n3 (K.tshape x)) eqn:Hok; [|discriminate].
    injection Hrun as <- <-.
    exists weight, n1, n2, n3. repeat split; assumption.
Qed.

Lemma nth_error_behind {A} (g l : list A) j :
  nth_error (g ++ l) (j + List.length g) = nth_error l j.
Proof.
  rewrite nth_error_app2 by lia.
  replace (j + List.length g - List.length g)%nat with j by lia.
  reflexivity.
Qed.

(** C3.  Whenever [MultiResBlock] builds its block with a float [alpha],
    the 1x1 dimension-conservation convolution has
    [int(W*0.167) + int(W*0.333) + int(W*0.5)] filters, [W = u_val * alpha],
    which is the sum of the filter counts of the three 3x3 convolutions;
    the block has one elementwise sum, and its two operands, the shortcut
    and the normalized concatenation of the three branches, have that many
    channels each. *)
Theorem MultiResBlock_add_operands u_val alpha x g t g' :
  MultiResBlock u_val x (Some alpha) g = Ok (t, g') ->
  exists weight n1 n2 n3 new,
    Py.mul_int u_val (Some alpha) = inr weight
    /\ Py.int (weight * 0.167)%float = inr n1
    /\ Py.int (weight * 0.333)%float = inr n2
    /\ Py.int (weight * 0.5)%float = inr n3
    /\ g' = g ++ new
    /\ convolutions new =
         [((1, 1), n1 + n2 + n3); ((3, 3), n1); ((3, 3), n2); ((3, 3), n3)]
    /\ exists i1 i2 i3 s shortcut merged concatenated,
         filter is_add new = [K.mkNode K.layers.add [i1; i2] s]
         /\ nth_error g' i1 = Some shortcut
         /\ nth_error g' i2 = Some merged
         /\ K.inbound merged = [i3]
         /\ nth_error g' i3 = Some concatenated
         /\ K.nlayer concatenated = K.layers.Concatenate
         /\ List.length (K.inbound concatenated) = 3%nat
         /\ channels (K.output_shape shortcut) = n1 + n2 + n3
         /\ channels (K.output_shape merged) = n1 + n2 + n3.
Proof.
  intros Hrun. apply MultiResBlock_Ok_inv in Hrun.
  destruct Hrun as (weight & n1 & n2 & n3 & Hw & H1 & H2 & H3 & _ & _ & ->).
  exists weight, n1, n2, n3,
    (MultiResBlock_nodes (List.length g) (K.tid x) (K.tshape x) n1 n2 n3).
  repeat (split; [assumption || reflexivity|]).
  set (s := (rows (K.tshape x), cols (K.tshape x), n1 + n2 + n3)).
  exists (1 + List.length g)%nat, (12 + List.length g)%nat,
    (11 + List.length g)%nat, s,
    (K.mkNode (K.layers.BatchNormalization false) [List.length g] s),
    (K.mkNode (K.layers.BatchNormalization true) [(11 + List.length g)%nat] s),
    (K.mkNode K.layers.Concatenate
       [(4 + List.length g)%nat; (7 + List.length g)%nat;
        (10 + List.length g)%nat] s).
  rewrite !nth_error_behind. repeat split; reflexivity.
Qed.

Lemma MultiResBlock_add_operands_witness :
  exists weight n1 n2 n3 new,
    Py.mul_int 32 (Some 1.67%float) = inr weight
    /\ Py.int (weight * 0.167)%float = inr n1
    /\ Py.int (weight * 0.333)%float = inr n2
    /\ Py.int (weight * 0.5)%float = inr n3
    /\ [K.mkNode (K.layers.Input (16, 16, 3)) [] (16, 16, 3)]
         ++ MultiResBlock_nodes 1 0 (16, 16, 3) 8 17 26 =
       [K.mkNode (K.layers.Input (16, 16, 3)) [] (16, 16, 3)] ++ new
    /\ convolutions new =
         [((1, 1), n1 + n2 + n3); ((3, 3), n1); ((3, 3), n2); ((3, 3), n3)]
    /\ exists i1 i2 i3 s shortcut merged concatenated,
         filter is_add new = [K.mkNode K.layers.add [i1; i2] s]
         /\ nth_error
              ([K.mkNode (K.layers.Input (16, 16, 3)) [] (16, 16, 3)]
                 ++ MultiResBlock_nodes 1 0 (16, 16, 3) 8 17 26) i1 =
            Some shortcut
         /\ nth_error
              ([K.mkNode (K.layers.Input (16, 16, 3)) [] (16, 16, 3)]
                 ++ MultiResBlock_nodes 1 0 (16, 16, 3) 8 17 26) i2 =
            Some merged
         /\ K.inbound merged = [i3]
         /\ nth_error
              ([K.mkNode (K.layers.Input (16, 16, 3)) [] (16, 16, 3)]
                 ++ MultiResBlock_nodes 1 0 (16, 16, 3) 8 17 26) i3 =
            Some concatenated
         /\ K.nlayer concatenated = K.layers.Concatenate
         /\ List.length (K.inbound concatenated) = 3%nat
         /\ channels (K.output_shape shortcut) = n1 + n2 + n3
         /\ channels (K.output_shape merged) = n1 + n2 + n3.
Proof.
  apply (MultiResBlock_add_operands 32 1.67%float (K.mkTensor 0 (16, 16, 3))
           [K.mkNode (K.layers.Input (16, 16, 3)) [] (16, 16, 3)]
           (K.mkTensor 16 (16, 16, 51))).
  vm_compute. reflexivity.
Defined.

(** C6.  Whenever [MultiResBlock] builds its block with a float [alpha],
    the record it adds is the block whose filter counts all come from
    [W = u_val * alpha] through [int]: the three successive 3x3
    convolutions have [int(W*0.167)], [int(W*0.333)] and [int(W*0.5)]
    filters, the 1x1 convolution has their sum, and the block has no other
    convolution. *)
Theorem MultiResBlock_filter_counts u_val alpha x g t g' :
  MultiResBlock u_val x (Some alpha) g = Ok (t, g') ->
  exists u_float n1 n2 n3,
    Py.float_of_int u_val = inr u_float
    /\ Py.int (u_float * alpha * 0.167)%float = inr n1
    /\ Py.int (u_float * alpha * 0.333)%float = inr n2
    /\ Py.int (u_float * alpha * 0.5)%float = inr n3
    /\ g' = g ++ MultiResBlock_nodes (List.length g) (K.tid x) (K.tshape x)
                   n1 n2 n3
    /\ convolutions (MultiResBlock_nodes (List.length g) (K.tid x)
                       (K.tshape x) n1 n2 n3) =
         [((1, 1), n1 + n2 + n3); ((3, 3), n1); ((3, 3), n2); ((3, 3), n3)].
Proof.
  intros Hrun. apply MultiResBlock_Ok_inv in Hrun.
  destruct Hrun as (weight & n1 & n2 & n3 & Hw & H1 & H2 & H3 & _ & _ & ->).
  unfold Py.mul_int in Hw.
  destruct (Py.float_of_int u_val) as [e|u_float]; [discriminate|].
  injection Hw as <-.
  exists u_float, n1, n2, n3. repeat split; assumption || reflexivity.
Qed.

Lemma MultiResBlock_filter_counts_witness :
  exists u_float n1 n2 n3,
    Py.float_of_int 512 = inr u_float
    /\ Py.int (u_float * 1.67 * 0.167)%float = inr n1
    /\ Py.int (u_float * 1.67 * 0.333)%float = inr n2
    /\ Py.int (u_float * 1.67 * 0.5)%float = inr n3
    /\ [K.mkNode (K.layers.Input (1, 1, 426)) [] (1, 1, 426)]
         ++ MultiResBlock_nodes 1 0 (1, 1, 426) 142 284 427 =
       [K.mkNode (K.layers.Input (1, 1, 426)) [] (1, 1, 426)]
         ++ MultiResBlock_nodes 1 0 (1, 1, 426) n1 n2 n3
    /\ convolutions (MultiResBlock_nodes 1 0 (1, 1, 426) n1 n2 n3) =
         [((1, 1), n1 + n2 + n3); ((3, 3), n1); ((3, 3), n2); ((3, 3), n3)].
Proof.
  apply (MultiResBlock_filter_counts 512 1.67%float (K.mkTensor 0 (1, 1, 426))
           [K.mkNode (K.layers.Input (1, 1, 426)) [] (1, 1, 426)]
           (K.mkTensor 16 (1, 1, 853))).
  vm_compute. reflexivity.
Defined.

(** ** The claim about [ResPath] *)

Lemma residual_units_adds n : forall k i s filters,
  List.length (filter is_add (residual_units n k i s filters)) = n.
Proof.
  induction n as [|n IH]; intros k i s filters; [reflexivity|].
  cbn [residual_units]. rewrite filter_app, length_app, IH. reflexivity.
Qed.

(** C8.  A run of [ResPath] either is refused by the framework at its first
    convolution, or records exactly [residual_unit_count length] residual
    units in a row (each a 1x1 shortcut convolution added to a 3x3
    convolution, then relu and batch normalization), the first fed by the
    input and each next one by the unit before; there are as many
    elementwise sums as units.  Lengths 0 and 1 and [None] give the same
    run. *)
Theorem ResPath_residual_units filters input length g :
  ResPath filters input length g =
    (if conv_ok filters (1, 1) (K.tshape input)
     then Ok (K.mkTensor (8 * residual_unit_count length - 1 + List.length g)
                (rows (K.tshape input), cols (K.tshape input), filters),
              g ++ residual_units (residual_unit_count length) (List.length g)
                     (K.tid input) (K.tshape input) filters)
     else Err (FrameworkError InvalidArgument))
  /\ List.length
       (filter is_add
          (residual_units (residual_unit_count length) (List.length g)
             (K.tid input) (K.tshape input) filters)) =
     residual_unit_count length
  /\ residual_unit_count (Some 0) = 1%nat
  /\ residual_unit_count (Some 1) = 1%nat
  /\ ResPath filters input (Some 0) g = ResPath filters input None g
  /\ ResPath filters input (Some 1) g = ResPath filters input None g.
Proof.
  split; [|split; [apply residual_units_adds|repeat split; reflexivity]].
  rewrite ResPath_run. cbv zeta.
  replace (match length with
           | Some n => (1 + Py.range (n - 1))%nat
           | None => 1%nat
           end) with (residual_unit_count length); [reflexivity|].
  destruct length as [n|]; [|reflexivity].
  cbn [residual_unit_count]. unfold Py.range. lia.
Qed.

(** ** Where errors come from *)










(** * Further properties of the four functions *)

(** ** What a successful call tells *)

Lemma bind_Ok_inv {S A B} (m : state_result S A) (f : A -> state_result S B) s r :
  bind m f s = Ok r -> exists a s', m s = Ok (a, s') /\ f a s' = Ok r.
Proof.
  unfold bind. destruct (m s) as [[a s']|e]; [|discriminate].
  intros H. exists a, s'. split; [reflexivity|exact H].
Qed.

Lemma call_Ok_inv l xs g t g' :
  K.call l xs g = Ok (t, g') ->
  exists s,
    K.compute_output_shape l (map K.tshape xs) = inr s
    /\ t = K.mkTensor (List.length g) s
    /\ g' = g ++ [K.mkNode l (map K.tid xs) s].
Proof.
  unfold K.call.
  destruct (K.compute_output_shape l (map K.tshape xs)) as [e|s]; [discriminate|].
  intros H. injection H as <- <-. exists s. repeat split; reflexivity.
Qed.

Lemma as_shape_inr s s' : K.as_shape s = inr s' -> s' = s.
Proof.
  unfold K.as_shape. destruct (K.nonnegative s); [|discriminate].
  intros H. injection H as <-. reflexivity.
Qed.

Lemma Conv2D_channels filters kernel_size strides padding use_bias sx s :
  K.compute_output_shape
    (K.layers.Conv2D filters kernel_size strides padding use_bias) [sx] = inr s ->
  channels s = filters.
Proof.
  cbn [K.compute_output_shape].
  destruct (K.normalize_padding padding) as [p|]; [|discriminate].
  destruct (andb (0 <=? filters) _); [|discriminate].
  destruct (andb (K.window_fits _ _ _) _); [|discriminate].
  intros H. apply as_shape_inr in H. subst s. reflexivity.
Qed.

(** X1.  Whenever [conv2d] returns, it has recorded a convolution without
    bias on its input, a batch normalization without scale on the
    convolution and, unless [activation] is [None], the activation on the
    normalization, and nothing else; the three have one output shape, whose
    channel count is [filters], and the tensor returned is that of the last
    call recorded. *)
Theorem conv2d_records x filters shape padding strides activation g t g' :
  conv2d x filters shape padding strides activation g = Ok (t, g') ->
  exists s,
    channels s = filters
    /\ K.tshape t = s
    /\ g' = g
            ++ [ K.mkNode
                   (K.layers.Conv2D filters shape strides padding false)
                   [K.tid x] s;
                 K.mkNode (K.layers.BatchNormalization false)
                   [List.length g] s ]
            ++ match activation with
               | None => []
               | Some a =>
                   [ K.mkNode (K.layers.Activation a)
                       [(1 + List.length g)%nat] s ]
               end
    /\ S (K.tid t) = List.length g'.
Proof.
  unfold conv2d. intros H.
  apply bind_Ok_inv in H. destruct H as (t1 & g1 & H1 & H).
  apply bind_Ok_inv in H. destruct H as (t2 & g2 & H2 & H).
  apply call_Ok_inv in H1. destruct H1 as (s1 & Hs1 & -> & ->).
  apply call_Ok_inv in H2. destruct H2 as (s2 & Hs2 & -> & ->).
  pose proof (Conv2D_channels _ _ _ _ _ (K.tshape x) _ Hs1) as Hch.
  cbn [map K.tshape K.tid K.compute_output_shape] in Hs2.
  injection Hs2 as <-.
  exists s1. split; [exact Hch|].
  destruct activation as [a|].
  - apply call_Ok_inv in H. destruct H as (s3 & Hs3 & -> & ->).
    cbn [map K.tshape K.tid K.compute_output_shape] in Hs3.
    destruct (K.known_activation a); [|discriminate]. injection Hs3 as <-.
    rewrite !length_snoc, <- !app_assoc. cbn [List.length Nat.add app K.tshape K.tid].
    repeat split; reflexivity.
  - unfold ret in H. injection H as <- <-.
    rewrite !length_snoc, <- !app_assoc. cbn [List.length Nat.add app K.tshape K.tid].
    repeat split; reflexivity.
Qed.

Lemma conv_ok_iff filters kernel s :
  conv_ok filters kernel s = true <->
  0 <= filters /\ 0 < fst kernel /\ 0 < snd kernel /\ 0 <= rows s /\ 0 <= cols s.
Proof.
  unfold conv_ok, K.positive_pair.
  rewrite !andb_true_iff, !Z.leb_le, !Z.ltb_lt. tauto.
Qed.

(** X2.  The argument [shape] of [conv2d] is the size of the kernel, not
    of the images: with the "same" padding and the unit strides of the
    defaults, as every call in the module has them, a [conv2d] of positive
    [filters] and kernel on an input of positive rows and columns is
    accepted, and the tensor it returns has the rows and columns of the
    input and [filters] channels, whatever the kernel and the channels of
    the input. *)
Theorem conv2d_same_keeps_size x filters kernel activation g :
  activation_ok activation = true ->
  0 < filters -> 0 < fst kernel -> 0 < snd kernel ->
  0 < rows (K.tshape x) -> 0 < cols (K.tshape x) ->
  exists t g',
    conv2d x filters kernel default_padding default_strides activation g =
    Ok (t, g')
    /\ K.tshape t = (rows (K.tshape x), cols (K.tshape x), filters).
Proof.
  intros Ha Hf Hk1 Hk2 Hr Hc.
  pose proof (conv2d_same x filters kernel activation g Ha) as Hrun.
  assert (Hok : conv_ok filters kernel (K.tshape x) = true)
    by (apply conv_ok_iff; lia).
  rewrite Hok in Hrun. eexists. eexists. split; [exact Hrun|reflexivity].
Qed.

Lemma conv2d_same_keeps_size_witness :
  exists t g',
    conv2d (K.mkTensor 0 (7, 5, 3)) 8 (3, 3) default_padding default_strides
      (Some "relu"%string)
      [K.mkNode (K.layers.Input (7, 5, 3)) [] (7, 5, 3)] =
    Ok (t, g')
    /\ K.tshape t = (7, 5, 8).
Proof.
  apply (conv2d_same_keeps_size (K.mkTensor 0 (7, 5, 3)) 8 (3, 3)
           (Some "relu"%string)
           [K.mkNode (K.layers.Input (7, 5, 3)) [] (7, 5, 3)]);
    cbn [fst snd rows cols K.tshape]; reflexivity || lia.
Defined.

Lemma conv2d_records_witness :
  exists s,
    channels s = 8
    /\ K.tshape (K.mkTensor 3 (8, 8, 8)) = s
    /\ [ K.mkNode (K.layers.Input (17, 17, 3)) [] (17, 17, 3);
         K.mkNode (K.layers.Conv2D 8 (3, 3) (2, 2) (Some "valid"%string) false)
           [0%nat] (8, 8, 8);
         K.mkNode (K.layers.BatchNormalization false) [1%nat] (8, 8, 8);
         K.mkNode (K.layers.Activation "relu") [2%nat] (8, 8, 8) ] =
       [ K.mkNode (K.layers.Input (17, 17, 3)) [] (17, 17, 3) ]
       ++ [ K.mkNode
              (K.layers.Conv2D 8 (3, 3) (2, 2) (Some "valid"%string) false)
              [0%nat] s;
            K.mkNode (K.layers.BatchNormalization false) [1%nat] s ]
       ++ [ K.mkNode (K.layers.Activation "relu") [2%nat] s ]
    /\ 4%nat = 4%nat.
Proof.
  apply (conv2d_records (K.mkTensor 0 (17, 17, 3)) 8 (3, 3)
           (Some "valid"%string) (2, 2) (Some "relu"%string)
           [K.mkNode (K.layers.Input (17, 17, 3)) [] (17, 17, 3)]
           (K.mkTensor 3 (8, 8, 8))).
  vm_compute. reflexivity.
Defined.

Lemma block_ok_iff n1 n2 n3 s :
  block_ok n1 n2 n3 s = true <->
  0 <= n1 /\ 0 <= n2 /\ 0 <= n3 /\ 0 <= rows s /\ 0 <= cols s.
Proof.
  unfold block_ok. rewrite !andb_true_iff, !conv_ok_iff.
  cbn [fst snd]. lia.
Qed.

(** X3.  Whenever [MultiResBlock] returns, its three filter counts are not
    negative, the tensor it returns has the rows and columns of the input
    and as many channels as the three branches have filters together,
    whatever the channel count of the input, and the run has added 16 layer
    calls behind the record it started from, the last of which produced
    the tensor returned. *)
Theorem MultiResBlock_output u_val x alpha g t g' :
  MultiResBlock u_val x alpha g = Ok (t, g') ->
  exists n1 n2 n3,
    block_filters u_val alpha = inr (n1, n2, n3)
    /\ 0 <= n1 /\ 0 <= n2 /\ 0 <= n3
    /\ K.tshape t = (rows (K.tshape x), cols (K.tshape x), n1 + n2 + n3)
    /\ firstn (List.length g) g' = g
    /\ List.length g' = (16 + List.length g)%nat
    /\ S (K.tid t) = List.length g'.
Proof.
  intros Hrun. apply MultiResBlock_Ok_inv in Hrun.
  destruct Hrun as (weight & n1 & n2 & n3 & Hw & H1 & H2 & H3 & Hok & -> & ->).
  apply block_ok_iff in Hok. destruct Hok as (P1 & P2 & P3 & _).
  exists n1, n2, n3.
  split. { unfold block_filters. rewrite Hw, H1, H2, H3. reflexivity. }
  repeat (split; [assumption|]).
  split; [reflexivity|]. split; [|split].
  - rewrite firstn_app, Nat.sub_diag, firstn_all. cbn [firstn]. apply app_nil_r.
  - rewrite length_snoc, MultiResBlock_nodes_length. reflexivity.
  - rewrite length_snoc, MultiResBlock_nodes_length. reflexivity.
Qed.

Lemma MultiResBlock_output_witness :
  exists n1 n2 n3,
    block_filters 64 (Some 1.67%float) = inr (n1, n2, n3)
    /\ 0 <= n1 /\ 0 <= n2 /\ 0 <= n3
    /\ K.tshape (K.mkTensor 16 (8, 8, 105)) = (8, 8, n1 + n2 + n3)
    /\ firstn 1
         ([K.mkNode (K.layers.Input (8, 8, 51)) [] (8, 8, 51)]
            ++ MultiResBlock_nodes 1 0 (8, 8, 51) 17 35 53) =
       [K.mkNode (K.layers.Input (8, 8, 51)) [] (8, 8, 51)]
    /\ List.length
         ([K.mkNode (K.layers.Input (8, 8, 51)) [] (8, 8, 51)]
            ++ MultiResBlock_nodes 1 0 (8, 8, 51) 17 35 53) = 17%nat
    /\ 17%nat =
       List.length
         ([K.mkNode (K.layers.Input (8, 8, 51)) [] (8, 8, 51)]
            ++ MultiResBlock_nodes 1 0 (8, 8, 51) 17 35 53).
Proof.
  apply (MultiResBlock_output 64 (K.mkTensor 0 (8, 8, 51)) (Some 1.67%float)
           [K.mkNode (K.layers.Input (8, 8, 51)) [] (8, 8, 51)]).
  vm_compute. reflexivity.
Defined.


(** ** More about [ResPath] *)

Lemma residual_units_app p : forall q k i s filters,
  residual_units (S p + q) k i s filters =
  residual_units (S p) k i s filters
  ++ residual_units q (8 * S p + k) (7 + 8 * p + k)
       (rows s, cols s, filters) filters.
Proof.
  induction p as [|p IH]; intros q k i s filters.
  - cbn [residual_units Nat.add Nat.mul]. rewrite app_nil_r. reflexivity.
  - change (residual_units (S (S p) + q) k i s filters)
      with (residual_unit k i s filters
            ++ residual_units (S p + q) (8 + k) (7 + k)
                 (rows s, cols s, filters) filters).
    change (residual_units (S (S p)) k i s filters)
      with (residual_unit k i s filters
            ++ residual_units (S p) (8 + k) (7 + k)
                 (rows s, cols s, filters) filters).
    rewrite IH, <- app_assoc. do 2 f_equal.
    cbn [rows cols fst snd]. f_equal; lia.
Qed.

(** X5.  Residual paths compose: a [ResPath] of [m] units followed by a
    [ResPath] of [n] units with the same [filters] on its output is the
    [ResPath] of [m + n] units, errors included. *)
Theorem ResPath_composes filters input m n g :
  1 <= m -> 1 <= n ->
  (out <- ResPath filters input (Some m) ;; ResPath filters out (Some n)) g =
  ResPath filters input (Some (m + n)) g.
Proof.
  intros Hm Hn. unfold bind. rewrite !ResPath_run. cbv zeta.
  destruct (conv_ok filters (1, 1) (K.tshape input)) eqn:Hok; [|reflexivity].
  rewrite ResPath_run. cbv zeta.
  cbn [K.tshape K.tid]. rewrite conv_ok_spatial, Hok.
  unfold Py.range.
  replace (1 + Z.to_nat (m + n - 1))%nat
    with (S (Z.to_nat (m - 1)) + (1 + Z.to_nat (n - 1)))%nat by lia.
  remember (Z.to_nat (m - 1)) as p eqn:Hp.
  remember (1 + Z.to_nat (n - 1))%nat as q eqn:Hq.
  change (1 + p)%nat with (S p).
  rewrite (residual_units_app p q), length_snoc, residual_units_length,
    <- app_assoc.
  cbn [rows cols fst snd].
  f_equal. f_equal; [f_equal; lia|].
  do 2 f_equal. f_equal; lia.
Qed.

Lemma ResPath_composes_witness :
  (out <- ResPath 64 (K.mkTensor 0 (8, 8, 105)) (Some 1) ;;
   ResPath 64 out (Some 2))
    [K.mkNode (K.layers.Input (8, 8, 105)) [] (8, 8, 105)] =
  ResPath 64 (K.mkTensor 0 (8, 8, 105)) (Some (1 + 2))
    [K.mkNode (K.layers.Input (8, 8, 105)) [] (8, 8, 105)].
Proof.
  apply (ResPath_composes 64 (K.mkTensor 0 (8, 8, 105)) 1 2); lia.
Defined.

(** X6.  A [ResPath] of positive [filters] on an input of positive rows
    and columns is accepted whatever [length] and the channels of the input
    are.  The tensor it returns has the rows and columns of the input and
    [filters] channels, and the run adds eight layer calls for each
    residual unit behind the record it started from, the last of which
    produced the tensor returned. *)
Theorem ResPath_output filters input length g :
  0 < filters -> 0 < rows (K.tshape input) -> 0 < cols (K.tshape input) ->
  exists t g',
    ResPath filters input length g = Ok (t, g')
    /\ K.tshape t = (rows (K.tshape input), cols (K.tshape input), filters)
    /\ firstn (List.length g) g' = g
    /\ List.length g' = (8 * residual_unit_count length + List.length g)%nat
    /\ S (K.tid t) = List.length g'.
Proof.
  intros Hf Hr Hc.
  assert (Hcount : match length with
                   | Some n => (1 + Py.range (n - 1))%nat
                   | None => 1%nat
                   end = residual_unit_count length).
  { destruct length as [n|]; [|reflexivity].
    cbn [residual_unit_count]. unfold Py.range. lia. }
  pose proof (ResPath_run filters input length g) as Hrun. cbv zeta in Hrun.
  rewrite Hcount in Hrun.
  assert (Hok : conv_ok filters (1, 1) (K.tshape input) = true)
    by (apply conv_ok_iff; cbn [fst snd]; lia).
  rewrite Hok in Hrun. eexists. eexists. split; [exact Hrun|].
  split; [reflexivity|]. split; [|split].
  - rewrite firstn_app, Nat.sub_diag, firstn_all. cbn [firstn].
    apply app_nil_r.
  - rewrite length_snoc, residual_units_length. reflexivity.
  - rewrite length_snoc, residual_units_length. cbn [K.tid].
    destruct length as [n|]; cbn [residual_unit_count]; lia.
Qed.

Lemma ResPath_output_witness :
  exists t g',
    ResPath 32 (K.mkTensor 0 (16, 16, 51)) (Some 4)
      [K.mkNode (K.layers.Input (16, 16, 51)) [] (16, 16, 51)] = Ok (t, g')
    /\ K.tshape t = (16, 16, 32)
    /\ firstn 1 g' = [K.mkNode (K.layers.Input (16, 16, 51)) [] (16, 16, 51)]
    /\ List.length g' = (8 * residual_unit_count (Some 4%Z) + 1)%nat
    /\ S (K.tid t) = List.length g'.
Proof.
  apply (ResPath_output 32 (K.mkTensor 0 (16, 16, 51)) (Some 4)
           [K.mkNode (K.layers.Input (16, 16, 51)) [] (16, 16, 51)]);
    cbn [rows cols fst snd K.tshape]; lia.
Defined.

(** ** More about [MultiResUnet] *)



Lemma conv2d_made_shift k ls e :
  conv2d_made (map (shift_entry k) ls) (shift_entry k e) = conv2d_made ls e.
Proof.
  destruct e as [j n].
  change (shift_entry k (j, n)) with ((j + k)%nat, shift_node k n).
  unfold conv2d_made. cbn [fst snd shift_node K.nlayer].
  destruct (K.nlayer n); try reflexivity.
  pose proof (producer_shift k (S j) ls) as Hp.
  change (S j + k)%nat with (S (j + k)) in Hp. rewrite Hp.
  destruct (producer ls (S j)) as [n'|]; [|reflexivity].
  cbn [option_map]. unfold normalizes. cbn [shift_node K.nlayer K.inbound].
  destruct (K.nlayer n') as [| | [|] | | | | |]; try reflexivity.
  destruct (K.inbound n') as [|i [|i' rest]]; try reflexivity.
  cbn [map].
  destruct (Nat.eqb_spec i j), (Nat.eqb_spec (i + k) (j + k));
    try reflexivity; lia.
Qed.

Lemma forallb_shift (check : list (nat * K.node) -> nat * K.node -> bool) k ls :
  (forall e, check (map (shift_entry k) ls) (shift_entry k e) = check ls e) ->
  forallb (check (map (shift_entry k) ls)) (map (shift_entry k) ls) =
  forallb (check ls) ls.
Proof.
  intros Hshift. generalize ls at 2 4. intros l.
  induction l as [|e l IH]; [reflexivity|].
  cbn [map forallb]. rewrite Hshift, IH. reflexivity.
Qed.

Lemma unet_conv2d_made a b c :
  forallb (conv2d_made (K.model_layers (unet_model 0 a b c)))
    (K.model_layers (unet_model 0 a b c)) = true.
Proof. vm_compute. reflexivity. Qed.

(** X8.  In every model [MultiResUnet] returns, every convolution is one
    [conv2d] made: it has no bias, "same" padding, unit strides and a 1x1
    or 3x3 kernel, and the layer call recorded right after it is a batch
    normalization without scale applied to its output. *)
Theorem MultiResUnet_convolutions input_size g m g' :
  MultiResUnet input_size g = Ok (m, g') ->
  forallb (conv2d_made (K.model_layers m)) (K.model_layers m) = true.
Proof.
  destruct input_size as [[h w] c]. intros Hrun.
  apply MultiResUnet_Ok_inv in Hrun. destruct Hrun as [-> _].
  rewrite unet_model_shift. cbn [shift_model K.model_layers].
  rewrite (forallb_shift conv2d_made) by (intros e; apply conv2d_made_shift).
  apply unet_conv2d_made.
Qed.

Lemma MultiResUnet_convolutions_witness :
  forallb (conv2d_made (K.model_layers (unet_model 0 1 2 3)))
    (K.model_layers (unet_model 0 1 2 3)) = true.
Proof.
  apply (MultiResUnet_convolutions (16, 32, 3) [] (unet_model 0 1 2 3)
           (unet_nodes 0 1 2 3)).
  vm_compute. reflexivity.
Defined.

(** X9.  Every model [MultiResUnet] returns has one input layer, 57
    convolutions, 85 batch normalizations, 57 activations, 13
    concatenations, 19 elementwise sums, 4 poolings and 4 transposed
    convolutions, whatever the input size. *)
Theorem MultiResUnet_census input_size g m g' :
  MultiResUnet input_size g = Ok (m, g') ->
  count_operation (K.model_layers m) input_placeholder = 1%nat
  /\ count_operation (K.model_layers m) convolution = 57%nat
  /\ count_operation (K.model_layers m) batch_normalization = 85%nat
  /\ count_operation (K.model_layers m) activation = 57%nat
  /\ count_operation (K.model_layers m) concatenation = 13%nat
  /\ count_operation (K.model_layers m) addition = 19%nat
  /\ count_operation (K.model_layers m) pooling = 4%nat
  /\ count_operation (K.model_layers m) transposed_convolution = 4%nat.
Proof.
  destruct input_size as [[h w] c]. intros Hrun.
  apply MultiResUnet_Ok_inv in Hrun. destruct Hrun as [-> _].
  rewrite unet_model_shift. cbn [shift_model K.model_layers].
  unfold count_operation. rewrite operations_of_shift.
  vm_compute. repeat split.
Qed.

Lemma MultiResUnet_census_witness :
  count_operation (K.model_layers (unet_model 0 16 16 3)) input_placeholder
    = 1%nat
  /\ count_operation (K.model_layers (unet_model 0 16 16 3)) convolution
      = 57%nat
  /\ count_operation (K.model_layers (unet_model 0 16 16 3))
        batch_normalization = 85%nat
  /\ count_operation (K.model_layers (unet_model 0 16 16 3)) activation
      = 57%nat
  /\ count_operation (K.model_layers (unet_model 0 16 16 3)) concatenation
      = 13%nat
  /\ count_operation (K.model_layers (unet_model 0 16 16 3)) addition
      = 19%nat
  /\ count_operation (K.model_layers (unet_model 0 16 16 3)) pooling = 4%nat
  /\ count_operation (K.model_layers (unet_model 0 16 16 3))
        transposed_convolution = 4%nat.
Proof.
  apply (MultiResUnet_census (256, 256, 3) [] (unet_model 0 16 16 3)
           (unet_nodes 0 16 16 3)).
  vm_compute. reflexivity.
Defined.

Lemma is_join_shift k n : is_join (shift_node k n) = is_join n.
Proof.
  unfold is_join. cbn [shift_node K.nlayer K.inbound].
  destruct (K.nlayer n); try reflexivity.
  destruct (K.inbound n) as [|i1 [|i2 [|i3 rest]]]; reflexivity.
Qed.

Lemma operands_shift k ls p t :
  operands (map (shift_entry k) ls) p (t + k) =
  option_map (map (fun i => (i + k)%nat)) (operands ls p t).
Proof.
  unfold operands. rewrite producer_shift.
  destruct (producer ls t) as [n|]; [|reflexivity].
  cbn [option_map shift_node K.nlayer K.inbound].
  destruct (p (K.nlayer n)); reflexivity.
Qed.

(** Reads a one-operand call off a shifted graph. *)
Ltac one_operand ls p t :=
  rewrite (operands_shift _ ls p t);
  destruct (operands ls p t) as [[|? [|? ?]]|]; cbn [option_map map];
  try reflexivity.

Lemma conv2d_operand_shift k ls kernel activated t :
  conv2d_operand (map (shift_entry k) ls) kernel activated (t + k) =
  option_map (fun i => (i + k)%nat) (conv2d_operand ls kernel activated t).
Proof.
  unfold conv2d_operand. destruct activated.
  - one_operand ls is_relu t.
    match goal with
    | |- context [operands ls (is_normalization false) ?b] =>
        one_operand ls (is_normalization false) b
    end.
    match goal with
    | |- context [operands ls (is_convolution kernel) ?c] =>
        one_operand ls (is_convolution kernel) c
    end.
  - one_operand ls (is_normalization false) t.
    match goal with
    | |- context [operands ls (is_convolution kernel) ?c] =>
        one_operand ls (is_convolution kernel) c
    end.
Qed.

Lemma unit_operand_shift k ls t :
  unit_operand (map (shift_entry k) ls) (t + k) =
  option_map (fun i => (i + k)%nat) (unit_operand ls t).
Proof.
  unfold unit_operand.
  one_operand ls (is_normalization true) t.
  match goal with
  | |- context [operands ls is_relu ?a] => one_operand ls is_relu a
  end.
  match goal with
  | |- context [operands ls is_sum ?s] =>
      rewrite (operands_shift _ ls is_sum s);
      destruct (operands ls is_sum s) as [[|r [|o [|? ?]]]|];
      cbn [option_map map]; try reflexivity
  end.
  rewrite !conv2d_operand_shift.
  destruct (conv2d_operand ls (1, 1) false r) as [x|]; [|reflexivity].
  destruct (conv2d_operand ls (3, 3) true o) as [y|]; [|reflexivity].
  cbn [option_map].
  destruct (Nat.eqb_spec x y), (Nat.eqb_spec (x + k) (y + k));
    try reflexivity; lia.
Qed.

Lemma path_start_shift k ls units : forall t,
  path_start (map (shift_entry k) ls) units (t + k) =
  option_map (fun i => (i + k)%nat) (path_start ls units t).
Proof.
  induction units as [|units IH]; intros t; [reflexivity|].
  cbn [path_start]. rewrite unit_operand_shift.
  destruct (unit_operand ls t) as [x|]; [|reflexivity].
  cbn [option_map]. apply IH.
Qed.

Lemma readers_shift k ls t :
  readers (map (shift_entry k) ls) (t + k) =
  map (fun i => (i + k)%nat) (readers ls t).
Proof.
  unfold readers. induction ls as [|[j n] ls IH]; [reflexivity|].
  cbn [map filter shift_entry snd fst shift_node K.inbound].
  assert (E : existsb (Nat.eqb (t + k)) (map (fun i => (i + k)%nat) (K.inbound n)) =
              existsb (Nat.eqb t) (K.inbound n)).
  { induction (K.inbound n) as [|i l IHl]; [reflexivity|].
    cbn [map existsb]. rewrite IHl.
    destruct (Nat.eqb_spec t i), (Nat.eqb_spec (t + k) (i + k));
      try reflexivity; lia. }
  rewrite E. destruct (existsb (Nat.eqb t) (K.inbound n));
    cbn [map fst]; rewrite IH; reflexivity.
Qed.

Lemma pooled_shift k ls t :
  pooled (map (shift_entry k) ls) (t + k) = pooled ls t.
Proof.
  unfold pooled. rewrite readers_shift.
  induction (readers ls t) as [|q l IH]; [reflexivity|].
  cbn [map existsb]. rewrite IH, producer_shift.
  destruct (producer ls q) as [n|]; reflexivity.
Qed.

Lemma joins_path_shift k ls units e :
  joins_path ls units e ->
  joins_path (map (shift_entry k) ls) units (shift_entry k e).
Proof.
  destruct e as [j n].
  intros (i1 & i2 & up & skip & block & Hl & Hin & Hup & Ht & Hskip & Hs & Hc
          & Hpath & Hwhole & Hpool & Hread).
  cbn [fst snd] in *.
  exists (i1 + k)%nat, (i2 + k)%nat, (shift_node k up), (shift_node k skip),
    (block + k)%nat.
  cbn [shift_entry fst snd shift_node K.nlayer K.inbound K.output_shape].
  rewrite !producer_shift, path_start_shift, unit_operand_shift, pooled_shift,
    readers_shift, Hin, Hup, Hskip, Hpath, Hwhole, Hread.
  repeat split; assumption.
Qed.

Lemma joins_shift k ls :
  filter (fun e => is_join (snd e)) (map (shift_entry k) ls) =
  map (shift_entry k) (filter (fun e => is_join (snd e)) ls).
Proof.
  induction ls as [|[j n] ls IH]; [reflexivity|].
  cbn [map filter shift_entry snd]. rewrite is_join_shift, IH.
  destruct (is_join n); reflexivity.
Qed.

Lemma unet_joins_path a b c :
  Forall2 (joins_path (K.model_layers (unet_model 0 a b c))) [4; 3; 2; 1]%nat
    (filter (fun e => is_join (snd e)) (K.model_layers (unet_model 0 a b c))).
Proof.
  match goal with
  | |- Forall2 _ _ ?l =>
      let l' := eval vm_compute in l in
      replace l with l' by (vm_compute; reflexivity)
  end.
  repeat (apply Forall2_cons;
          [ unfold joins_path; do 5 eexists;
            repeat (split; [vm_compute; reflexivity|]);
            vm_compute; reflexivity
          | ]).
  apply Forall2_nil.
Qed.

(** X10.  Every model [MultiResUnet] returns has four concatenations of
    two tensors, and each of them joins a skip connection: its first
    operand comes from a transposed convolution; its second is the output
    of a whole [ResPath], of 4, 3, 2 and 1 residual units from the
    outermost level to the innermost, applied to the tensor the encoder
    pools at that level, and nothing else reads that output; the two
    operands have one shape, and the result has twice their channels. *)
Theorem MultiResUnet_skip_connections input_size g m g' :
  MultiResUnet input_size g = Ok (m, g') ->
  Forall2 (joins_path (K.model_layers m)) [4; 3; 2; 1]%nat
    (filter (fun e => is_join (snd e)) (K.model_layers m)).
Proof.
  destruct input_size as [[h w] c]. intros Hrun.
  apply MultiResUnet_Ok_inv in Hrun. destruct Hrun as [-> _].
  rewrite unet_model_shift. cbn [shift_model K.model_layers].
  rewrite joins_shift.
  generalize (unet_joins_path (sixteenth h) (sixteenth w) c).
  generalize (filter (fun e => is_join (snd e))
                (K.model_layers (unet_model 0 (sixteenth h) (sixteenth w) c))).
  generalize (K.model_layers (unet_model 0 (sixteenth h) (sixteenth w) c)).
  intros ls joins Hall.
  induction Hall as [|units e us es He Hes IH]; [apply Forall2_nil|].
  cbn [map]. apply Forall2_cons; [|exact IH].
  apply joins_path_shift. exact He.
Qed.

Lemma MultiResUnet_skip_connections_witness :
  Forall2 (joins_path (K.model_layers (unet_model 0 1 1 1))) [4; 3; 2; 1]%nat
    (filter (fun e => is_join (snd e)) (K.model_layers (unet_model 0 1 1 1))).
Proof.
  apply (MultiResUnet_skip_connections (16, 16, 1) [] (unet_model 0 1 1 1)
           (unet_nodes 0 1 1 1)).
  vm_compute. reflexivity.
Defined.

Lemma activations_of_shift k ls :
  activations_of (map (shift_entry k) ls) = activations_of ls.
Proof.
  unfold activations_of. induction ls as [|[j n] ls IH]; [reflexivity|].
  cbn [map flat_map shift_entry snd shift_node K.nlayer]. rewrite IH.
  reflexivity.
Qed.

Lemma unet_newest a b c :
  exists n rest,
    K.model_layers (unet_model 0 a b c) = (239%nat, n) :: rest
    /\ K.nlayer n = K.layers.Activation "sigmoid".
Proof. vm_compute. eexists. eexists. split; reflexivity. Qed.

(** X11.  In every model [MultiResUnet] returns, the newest layer call is
    the sigmoid activation that produces the output, and every other
    activation, 56 of them, is a relu. *)
Theorem MultiResUnet_activations input_size g m g' :
  MultiResUnet input_size g = Ok (m, g') ->
  activations_of (K.model_layers m) =
  "sigmoid"%string :: repeat "relu"%string 56
  /\ exists out n rest,
       K.outputs m = [out]
       /\ K.model_layers m = (K.tid out, n) :: rest
       /\ K.nlayer n = K.layers.Activation "sigmoid".
Proof.
  destruct input_size as [[h w] c]. intros Hrun.
  apply MultiResUnet_Ok_inv in Hrun. destruct Hrun as [-> _].
  split.
  - rewrite unet_model_shift. cbn [shift_model K.model_layers].
    rewrite activations_of_shift. vm_compute. reflexivity.
  - destruct (unet_newest (sixteenth h) (sixteenth w) c)
      as (n & rest & Hls & Hn).
    exists (unet_output (List.length g) (sixteenth h) (sixteenth w)),
      (shift_node (List.length g) n),
      (map (shift_entry (List.length g)) rest).
    rewrite unet_model_shift. cbn [shift_model K.model_layers K.outputs].
    rewrite Hls. repeat split. exact Hn.
Qed.

Lemma MultiResUnet_activations_witness :
  activations_of (K.model_layers (unet_model 0 2 1 3)) =
  "sigmoid"%string :: repeat "relu"%string 56
  /\ exists out n rest,
       K.outputs (unet_model 0 2 1 3) = [out]
       /\ K.model_layers (unet_model 0 2 1 3) = (K.tid out, n) :: rest
       /\ K.nlayer n = K.layers.Activation "sigmoid".
Proof.
  apply (MultiResUnet_activations (32, 16, 3) [] (unet_model 0 2 1 3)
           (unet_nodes 0 2 1 3)).
  vm_compute. reflexivity.
Defined.

Ltac level k :=
  exists k; unfold twice, rows, cols; cbn [fst snd];
  let p := eval vm_compute in (2 ^ k) in change (2 ^ k) with p;
  lia.

Lemma unet_levels a b c :
  Forall (at_level (twice (twice (twice (twice a))))
            (twice (twice (twice (twice b)))))
    (map (fun e => K.output_shape (snd e))
       (K.model_layers (unet_model 0 a b c))).
Proof.
  match goal with
  | |- Forall _ ?l =>
      let l' := eval cbv -[twice Z.add Z.mul] in l in change l with l'
  end.
  repeat (apply Forall_cons;
          [ first [level 0 | level 1 | level 2 | level 3 | level 4] | ]).
  apply Forall_nil.
Qed.

(** X12.  Every layer of a model [MultiResUnet] returns works at one of
    five resolutions: the rows and columns of its output are those of the
    input size divided by 1, 2, 4, 8 or 16. *)
Theorem MultiResUnet_resolutions h w c g m g' :
  MultiResUnet (h, w, c) g = Ok (m, g') ->
  Forall (fun e => at_level h w (K.output_shape (snd e))) (K.model_layers m).
Proof.
  rewrite MultiResUnet_cases.
  destruct (poolable (h, w, c)); [|discriminate].
  destruct (andb (h mod 16 =? 0) (w mod 16 =? 0)) eqn:Hd; [|discriminate].
  apply andb_true_iff in Hd. destruct Hd as [Hh Hw].
  apply Z.eqb_eq in Hh, Hw.
  apply sixteen_times in Hh, Hw.
  intros H. injection H as <- _.
  rewrite unet_model_shift. cbn [shift_model K.model_layers].
  remember (sixteenth h) as a eqn:Ea. remember (sixteenth w) as b eqn:Eb.
  clear Ea Eb. subst h w.
  apply Forall_map.
  generalize (unet_levels a b c). rewrite Forall_map.
  apply Forall_impl. intros [j n] Hj. exact Hj.
Qed.

Lemma MultiResUnet_resolutions_witness :
  Forall (fun e => at_level 32 48 (K.output_shape (snd e)))
    (K.model_layers (unet_model 0 2 3 1)).
Proof.
  apply (MultiResUnet_resolutions 32 48 1 [] (unet_model 0 2 3 1)
           (unet_nodes 0 2 3 1)).
  vm_compute. reflexivity.
Defined.
